(** * OnlineGameRoomManager: rooms, slot numbers and relay

    A shallow embedding of [OnlineGameRoomManager.py]: the two process-wide
    dictionaries [rooms] and [client_rooms], the body of the message loop of
    [handler] and [cleanup_player], followed by the properties of the room
    life cycle.

    Conventions of the embedding.
    - A websocket object is used by the program only as a dictionary key, a
      list element (compared by identity) and the target of [send]; it is a
      natural number here.
    - [await ws.send(...)] either returns or raises.  The result of a send
      to each connection is read from a [link] (one per operation), and every
      attempt is recorded in a trace of events.
    - The program runs on one cooperative event loop.  One pass through the
      body of the message loop, and one call of [cleanup_player], are each
      taken as one step: the handlers of other connections do not run between
      the sends of a step.
    - [json.loads] is outside the program: an inbound text is given as what
      lines 37-38 make of it: the decoded value, [json.JSONDecodeError], or
      another exception.  JSON numbers are integers here (a float is not
      represented).  The human-readable ["message"] field of a reply and the
      log lines are left out. *)

From stdpp Require Import gmap strings list sorting.

#[local] Set Warnings "-clear-no-such-hyp".

(** ** JSON values *)

(** The JSON values Python can hash: [None], [bool], [int], [str]. *)
Inductive atom :=
  | ANull
  | ABool (b : bool)
  | ANum (n : Z)
  | AStr (s : string).

(** A decoded JSON text; a Python [dict] is an association list in
    insertion order. *)
#[local] Set Warnings "-register-all".
Inductive json :=
  | JAtom (a : atom)
  | JArr (items : list json)
  | JObj (fields : list (string * json)).

Global Instance atom_eq_dec : EqDecision atom.
Proof. solve_decision. Defined.

Definition atom_to_sum (a : atom) : unit + bool + Z + string :=
  match a with
  | ANull => inl (inl (inl tt))
  | ABool b => inl (inl (inr b))
  | ANum n => inl (inr n)
  | AStr s => inr s
  end.

Definition atom_of_sum (x : unit + bool + Z + string) : atom :=
  match x with
  | inl (inl (inl _)) => ANull
  | inl (inl (inr b)) => ABool b
  | inl (inr n) => ANum n
  | inr s => AStr s
  end.

Global Instance atom_countable : Countable atom.
Proof.
  refine (inj_countable' atom_to_sum atom_of_sum _).
  by intros [].
Defined.

(** Python dictionaries compare keys with [==] and [hash]: [True] is the key
    [1] and [False] the key [0].  [py_key] picks the representative under
    which a room id is looked up in [rooms]. *)
Definition py_key (a : atom) : atom :=
  match a with
  | ABool b => ANum (if b then 1 else 0)
  | _ => a
  end.

(** ** Insertion-ordered dictionaries *)

Section dict.
Context {K V : Type} `{EqDecision K}.

(** [d.get(k)] / [d[k]] ([None] stands for [KeyError] or the default). *)
Fixpoint dict_get (k : K) (d : list (K * V)) : option V :=
  match d with
  | [] => None
  | (k', v) :: d' => if decide (k' = k) then Some v else dict_get k d'
  end.

(** [d[k] = v]: an existing key keeps its position, a new key goes last. *)
Fixpoint dict_set (k : K) (v : V) (d : list (K * V)) : list (K * V) :=
  match d with
  | [] => [(k, v)]
  | (k', v') :: d' =>
      if decide (k' = k) then (k, v) :: d' else (k', v') :: dict_set k v d'
  end.

(** The dictionary after [d.pop(k, None)]. *)
Fixpoint dict_del (k : K) (d : list (K * V)) : list (K * V) :=
  match d with
  | [] => []
  | (k', v') :: d' =>
      if decide (k' = k) then d' else (k', v') :: dict_del k d'
  end.

(** [list(d.values())] *)
Definition dict_values (d : list (K * V)) : list V := d.*2.

Definition dict_keys (d : list (K * V)) : list K := d.*1.
End dict.

(** [l.remove(x)]: drops the first occurrence ([ValueError] when there is
    none; every call in the program is guarded by [x in l]). *)
Fixpoint list_remove_first {A} `{EqDecision A} (x : A) (l : list A) : list A :=
  match l with
  | [] => []
  | y :: l' => if decide (y = x) then l' else y :: list_remove_first x l'
  end.

(** [min(l)] of a non-empty list of numbers. *)
Fixpoint py_min (x : nat) (l : list nat) : nat :=
  match l with
  | [] => x
  | y :: l' => Nat.min x (py_min y l')
  end.

(** ** The state of the server *)

Definition conn := nat.

(** A value of [rooms]:
    [{"clients": [...], "players": {...}, "used_player_numbers": {n: True}}].
    Every room is created with the key ["used_player_numbers"], whose values
    are all [True]: a set of numbers. *)
Record room := Room {
  clients : list conn;
  players : list (conn * nat);
  used_player_numbers : gset nat;
}.

Record state := State {
  rooms : gmap atom room;
  client_rooms : gmap conn atom;
}.

Definition initial : state := State ∅ ∅.

(** ** Outbound envelopes *)

Inductive packet :=
  | Error (message : string)
  | RoomCreated (room_id : atom) (player_number current_players_count max_players : nat)
  | RoomJoined (room_id : atom) (player_number current_players_count max_players : nat)
      (players_list : list nat)
  | RoomFull (room_id : atom) (current_players_count max_players : nat)
  | PlayerJoined (room_id : atom) (player_number current_players_count : nat)
      (players_list : list nat)
  | PlayerLeft (room_id : atom) (player_number : option nat) (current_players_count : nat)
      (players_list : list nat)
  | DataReceived (room_id : atom) (recipients_count current_players_count : nat)
  | DataTransfer (data : list (string * json)) (from_player : nat).

(** What [await ws.send(...)] does. *)
Inductive send_result :=
  | Sent
  | ConnectionClosed
  | OtherError.

Definition link := conn → send_result.

Record event := Send {
  target : conn;
  sent_packet : packet;
  result : send_result;
}.

(** Whether the body of the message loop reached its end (or a [continue]),
    or an exception left it for the handlers of the outer [try]. *)
Inductive outcome :=
  | Continue
  | Raised.

(** What lines 37-38 make of an inbound text: [json.loads] raises
    [json.JSONDecodeError] ([BadJSON]); or the lines raise another exception
    ([LoadsRaised]: [RecursionError] on a text nested too deep, [ValueError]
    on an integer of too many digits, [UnicodeDecodeError] on a binary
    frame), which only the [except Exception] of the outer [try] catches; or
    the text decodes. *)
Inductive inbound :=
  | BadJSON
  | LoadsRaised
  | Decoded (data : json).

(** ** [cleanup_player] *)

Definition cleanup_player (net : link) (st : state) (websocket : conn)
    : state * list event :=
  (* room_id = client_rooms.pop(websocket, None) *)
  match client_rooms st !! websocket with
  | None => (st, [])
  | Some room_id =>
      let st := State (rooms st) (delete websocket (client_rooms st)) in
      (* if room_id is None: return *)
      if decide (room_id = ANull) then (st, []) else
      (* room = rooms.get(room_id) *)
      match rooms st !! py_key room_id with
      | None => (st, [])
      | Some room =>
          if decide (websocket ∈ clients room) then
            let player_number := dict_get websocket (players room) in
            let room :=
              Room (list_remove_first websocket (clients room))
                   (dict_del websocket (players room))
                   (match player_number with
                    | Some n => used_player_numbers room ∖ {[n]}
                    | None => used_player_numbers room
                    end) in
            let players_list := dict_values (players room) in
            let current_players_count := length (clients room) in
            (* a failed send is logged by [except Exception] *)
            let notices :=
              (λ client,
                 Send client
                   (PlayerLeft room_id player_number current_players_count
                      players_list)
                   (net client)) <$> clients room in
            (* if not room["clients"]: del rooms[room_id] *)
            let rooms' :=
              match clients room with
              | [] => delete (py_key room_id) (rooms st)
              | _ :: _ => <[py_key room_id := room]> (rooms st)
              end in
            (State rooms' (client_rooms st), notices)
          else (st, [])
      end
  end.

(** ** The body of the message loop of [handler] *)

Definition outcome_of (r : send_result) : outcome :=
  match r with
  | Sent => Continue
  | _ => Raised
  end.

(** A reply to the sender outside any [try]: when the send raises, the
    exception leaves the loop. *)
Definition reply (net : link) (st : state) (websocket : conn) (p : packet)
    : state * list event * outcome :=
  (st, [Send websocket p (net websocket)], outcome_of (net websocket)).

(** Lines 61-81: the room id is not a key of [rooms]. *)
Definition handler_create (net : link) (st : state) (websocket : conn)
    (room_id : atom) : state * list event * outcome :=
  let room := Room [websocket] [(websocket, 1)] {[1]} in
  let st := State (<[py_key room_id := room]> (rooms st))
                  (<[websocket := room_id]> (client_rooms st)) in
  reply net st websocket (RoomCreated room_id 1 1 2).

(** Lines 100-102: the numbers of [range(1, 3)] no client of the room has,
    and the number given to the joiner. *)
Definition available_numbers (taken : list nat) : list nat :=
  filter (λ i, i ∉ taken) (seq 1 2).

Definition new_player_number (available_numbers : list nat) : nat :=
  match available_numbers with
  | [] => 2
  | i :: rest => py_min i rest
  end.

(** Lines 84-145: [websocket not in room["clients"]]. *)
Definition handler_join (net : link) (st : state) (websocket : conn)
    (room_id : atom) (room : room) : state * list event * outcome :=
  if decide (2 ≤ length (clients room)) then
    reply net st websocket (RoomFull room_id (length (clients room)) 2)
  else
    (* [room["players"][client] for client in room["clients"]] *)
    match mapM (λ client, dict_get client (players room)) (clients room) with
    | None => (st, [], Raised)
    | Some taken =>
        let player_number := new_player_number (available_numbers taken) in
        let room :=
          Room (clients room ++ [websocket])
               (dict_set websocket player_number (players room))
               ({[player_number]} ∪ used_player_numbers room) in
        let st := State (<[py_key room_id := room]> (rooms st))
                        (<[websocket := room_id]> (client_rooms st)) in
        let players_list := dict_values (players room) in
        let current_players_count := length (clients room) in
        let joined :=
          Send websocket
            (RoomJoined room_id player_number current_players_count 2
               players_list)
            (net websocket) in
        match net websocket with
        | Sent =>
            (* a failed send to another client is logged by
               [except Exception] *)
            let notices :=
              (λ client,
                 Send client
                   (PlayerJoined room_id player_number current_players_count
                      players_list)
                   (net client))
                <$> filter (λ client, client ≠ websocket) (clients room) in
            (st, joined :: notices, Continue)
        | _ => (st, [joined], Raised)
        end
    end.

(** Lines 156-178: the loop over [list(room["clients"])], a copy taken
    before the first send. *)
Fixpoint forward (net : link) (websocket : conn) (forward_msg : packet)
    (snapshot : list conn) (st : state) (forward_count : nat)
    : state * list event * nat :=
  match snapshot with
  | [] => (st, [], forward_count)
  | client :: snapshot =>
      if decide (client = websocket) then
        forward net websocket forward_msg snapshot st forward_count
      else
        let attempt := Send client forward_msg (net client) in
        match net client with
        | Sent =>
            let '(st, trace, n) :=
              forward net websocket forward_msg snapshot st (S forward_count) in
            (st, attempt :: trace, n)
        | ConnectionClosed =>
            let '(st, notices) := cleanup_player net st client in
            let '(st, trace, n) :=
              forward net websocket forward_msg snapshot st forward_count in
            (st, attempt :: notices ++ trace, n)
        | OtherError =>
            let '(st, trace, n) :=
              forward net websocket forward_msg snapshot st forward_count in
            (st, attempt :: trace, n)
        end
  end.

(** Lines 147-193: the sender is in [room["clients"]].  The local [room] is
    the object stored in [rooms]; [cleanup_player] takes it out of [rooms]
    only once its client list is empty, so the count in the acknowledgement
    is read back from [rooms], and is 0 for a room no longer there. *)
Definition handler_relay (net : link) (st : state) (websocket : conn)
    (room_id : atom) (room : room) (data : list (string * json))
    : state * list event * outcome :=
  (* player_number = room["players"][websocket] *)
  match dict_get websocket (players room) with
  | None => (st, [], Raised)
  | Some player_number =>
      let original_data := data in
      let '(st, trace, forward_count) :=
        forward net websocket (DataTransfer original_data player_number)
          (clients room) st 0 in
      let current_players_count :=
        match rooms st !! py_key room_id with
        | Some room => length (clients room)
        | None => 0
        end in
      let '(st, ack, o) :=
        reply net st websocket
          (DataReceived room_id forward_count current_players_count) in
      (st, trace ++ ack, o)
  end.

Definition handler_body (net : link) (st : state) (websocket : conn)
    (message : inbound) : state * list event * outcome :=
  match message with
  | BadJSON =>
      (* except json.JSONDecodeError *)
      reply net st websocket
        (Error "Invalid data format. Please provide correct JSON")
  | LoadsRaised =>
      (* not caught at line 39: the exception leaves the loop *)
      (st, [], Raised)
  | Decoded (JObj data) =>
      (* "room_id" in data; room_id = data.get("room_id") *)
      match dict_get "room_id"%string data with
      | None =>
          reply net st websocket (Error "Missing required parameter: room_id")
      | Some (JAtom room_id) =>
          match rooms st !! py_key room_id with
          | None => handler_create net st websocket room_id
          | Some room =>
              if decide (websocket ∈ clients room)
              then handler_relay net st websocket room_id room data
              else handler_join net st websocket room_id room
          end
      | Some _ =>
          (* [room_id not in rooms] raises TypeError: unhashable type *)
          (st, [], Raised)
      end
  | Decoded _ =>
      reply net st websocket (Error "Missing required parameter: room_id")
  end.

(** [handler]: the messages of one connection, each with the links at the
    time it is handled; the loop ends with the inbox or with the first
    exception, and [finally] runs [cleanup_player]. *)
Fixpoint handler (closing : link) (st : state) (websocket : conn)
    (inbox : list (link * inbound)) : state * list event :=
  match inbox with
  | [] => cleanup_player closing st websocket
  | (net, message) :: inbox =>
      let '(st, trace, o) := handler_body net st websocket message in
      match o with
      | Continue =>
          let '(st, rest) := handler closing st websocket inbox in
          (st, trace ++ rest)
      | Raised =>
          let '(st, rest) := cleanup_player closing st websocket in
          (st, trace ++ rest)
      end
  end.

(** The states the server can be in: any interleaving of loop bodies and
    cleanups of any connections, from the empty dictionaries. *)
Inductive reachable : state → Prop :=
  | reachable_initial : reachable initial
  | reachable_message net st websocket message :
      reachable st →
      reachable (handler_body net st websocket message).1.1
  | reachable_cleanup net st websocket :
      reachable st →
      reachable (cleanup_player net st websocket).1.

(** ** The shape of a room *)

(** What every room stored in [rooms] satisfies: the keys of ["players"] are
    the clients in the same order, the numbers are distinct and among 1 and
    2, ["used_player_numbers"] holds exactly these numbers, and somebody is
    in the room. *)
Record room_ok (r : room) : Prop := RoomOk {
  ok_members : NoDup (clients r);
  ok_keys : dict_keys (players r) = clients r;
  ok_numbers : ∀ n, n ∈ dict_values (players r) → n = 1 ∨ n = 2;
  ok_distinct : NoDup (dict_values (players r));
  ok_used : ∀ n, n ∈ used_player_numbers r ↔ n ∈ dict_values (players r);
  ok_occupied : clients r ≠ [];
}.

Definition rooms_ok (st : state) : Prop :=
  ∀ key r, rooms st !! key = Some r → room_ok r.

(** ** The smallest free number *)

(** [n] is the smallest of the numbers 1 and 2 that is not in [occupied]. *)
Definition smallest_free (occupied : gset nat) (n : nat) : Prop :=
  (n = 1 ∨ n = 2) ∧ (n ∉ occupied)
  ∧ ∀ m, m = 1 ∨ m = 2 → m ∉ occupied → n ≤ m.

(** ** Kinds of envelopes *)

Definition is_transfer (p : packet) : bool :=
  match p with
  | DataTransfer _ _ => true
  | _ => false
  end.

(** The link on which every send to [peer] finds the connection closed. *)
Definition closed_for (peer : conn) : link :=
  λ client, if decide (client = peer) then ConnectionClosed else Sent.

(** The number of forwards counted for one recipient. *)
Definition forwarded (r : send_result) : nat :=
  match r with
  | Sent => 1
  | _ => 0
  end.

(** ** Messages that are not a well-formed envelope *)


(** ** A session of three connections

    Connections 1 and 2 open room ["r1"], connection 1 leaves, connection 3
    arrives.  Used to run the operations on concrete states. *)

Definition all_sent : link := λ _, Sent.

Definition envelope (room_id : string) : list (string * json) :=
  [("room_id"%string, JAtom (AStr room_id))].

Definition st_created : state :=
  (handler_body all_sent initial 1 (Decoded (JObj (envelope "r1")))).1.1.

Definition st_joined : state :=
  (handler_body all_sent st_created 2 (Decoded (JObj (envelope "r1")))).1.1.

Definition st_left : state := (cleanup_player all_sent st_joined 1).1.

Definition st_rejoined : state :=
  (handler_body all_sent st_left 3 (Decoded (JObj (envelope "r1")))).1.1.

(** ** The index of connections *)

Global Instance send_result_eq_dec : EqDecision send_result.
Proof. solve_decision. Defined.

(** Every entry of [client_rooms] names a room stored in [rooms] of which
    the connection is a client. *)
Definition index_ok (st : state) : Prop :=
  ∀ websocket room_id,
    client_rooms st !! websocket = Some room_id →
    ∃ r, rooms st !! py_key room_id = Some r ∧ websocket ∈ clients r.

(** The clients of a copy of [room["clients"]], other than the sender, to
    which a send goes out. *)
Definition recipients (net : link) (websocket : conn) (snapshot : list conn)
    : nat :=
  length (filter (λ client, client ≠ websocket ∧ net client = Sent) snapshot).

(** * Properties *)

(** ** Dictionaries and lists *)

Section dict_facts.
Context {K V : Type} `{EqDecision K}.
Implicit Types (k : K) (v : V) (d : list (K * V)).

Lemma dict_get_None k d : dict_get k d = None ↔ k ∉ dict_keys d.
Proof.
  induction d as [|[k' v'] d IH]; simpl.
  - split; [intros _; apply not_elem_of_nil | done].
  - rewrite not_elem_of_cons. case_decide.
    + split; [done | intros [? _]; congruence].
    + rewrite IH. split; [intros ?; split; [congruence | done] | by intros [_ ?]].
Qed.

Lemma dict_get_Some_elem k v d : dict_get k d = Some v → v ∈ dict_values d.
Proof.
  induction d as [|[k' v'] d IH]; simpl; [done|].
  case_decide.
  - intros [= ->]. apply list_elem_of_here.
  - intros. apply list_elem_of_further. auto.
Qed.

Lemma dict_keys_set_new k v d :
  k ∉ dict_keys d → dict_keys (dict_set k v d) = dict_keys d ++ [k].
Proof.
  induction d as [|[k' v'] d IH]; simpl; [done|].
  rewrite not_elem_of_cons. intros [? ?].
  case_decide; [congruence|]. simpl. f_equal. auto.
Qed.

Lemma dict_values_set_new k v d :
  k ∉ dict_keys d → dict_values (dict_set k v d) = dict_values d ++ [v].
Proof.
  induction d as [|[k' v'] d IH]; simpl; [done|].
  rewrite not_elem_of_cons. intros [? ?].
  case_decide; [congruence|]. simpl. f_equal. auto.
Qed.

Lemma dict_get_set_eq k v d : dict_get k (dict_set k v d) = Some v.
Proof.
  induction d as [|[k' v'] d IH]; simpl.
  - by rewrite decide_True.
  - case_decide; simpl; [by rewrite decide_True | by rewrite decide_False].
Qed.

Lemma dict_get_set_ne k k' v d :
  k ≠ k' → dict_get k' (dict_set k v d) = dict_get k' d.
Proof.
  intros Hne. induction d as [|[k0 v0] d IH]; simpl.
  - by rewrite decide_False.
  - destruct (decide (k0 = k)) as [->|]; simpl.
    + by rewrite !decide_False.
    + case_decide; auto.
Qed.

Lemma dict_keys_del k d :
  dict_keys (dict_del k d) = list_remove_first k (dict_keys d).
Proof.
  induction d as [|[k' v'] d IH]; simpl; [done|].
  case_decide; simpl; [done | by f_equal].
Qed.

Lemma dict_values_del_sublist k d :
  sublist (dict_values (dict_del k d)) (dict_values d).
Proof.
  induction d as [|[k' v'] d IH]; simpl; [done|].
  case_decide; simpl; [by apply sublist_cons | by apply sublist_skip].
Qed.

(** With distinct values, popping a key takes exactly its value away. *)
Lemma dict_values_del k v d x :
  NoDup (dict_values d) → dict_get k d = Some v →
  x ∈ dict_values (dict_del k d) ↔ x ∈ dict_values d ∧ x ≠ v.
Proof.
  induction d as [|[k' v'] d IH]; simpl; [done|].
  rewrite NoDup_cons. intros [Hv' Hnd].
  case_decide.
  - intros [= ->]. rewrite elem_of_cons. split.
    + intros Hx. split; [by right|]. intros ->. done.
    + intros [[->|?] ?]; done.
  - intros Hget. simpl. rewrite !elem_of_cons. unfold dict_values in IH.
    rewrite (IH Hnd Hget).
    split; [|naive_solver].
    intros [->|[? ?]]; [|naive_solver].
    split; [by left|]. intros ->.
    apply Hv'. by eapply dict_get_Some_elem.
Qed.

Lemma dict_get_None_del k d :
  dict_get k d = None → dict_del k d = d.
Proof.
  induction d as [|[k' v'] d IH]; simpl; [done|].
  case_decide; [done|]. intros. f_equal. auto.
Qed.

Lemma dict_get_elem k v d :
  NoDup (dict_keys d) → (k, v) ∈ d → dict_get k d = Some v.
Proof.
  induction d as [|[k' v'] d IH]; simpl; [by intros _ ?%elem_of_nil|].
  rewrite NoDup_cons, elem_of_cons. intros [Hk' Hnd] [[= -> ->]|Hin].
  - by rewrite decide_True.
  - rewrite decide_False; [auto|].
    intros ->. apply Hk'. by apply (list_elem_of_fmap_2 fst) in Hin.
Qed.

Lemma Forall2_dict_get d0 d :
  (∀ k v, (k, v) ∈ d → dict_get k d0 = Some v) →
  Forall2 (λ k v, dict_get k d0 = Some v) (dict_keys d) (dict_values d).
Proof.
  induction d as [|[k v] d IH]; intros Hall; simpl; constructor.
  - apply Hall, list_elem_of_here.
  - apply IH. intros k' v' ?. by apply Hall, list_elem_of_further.
Qed.

(** Reading the value of every key, in key order, gives the values. *)
Lemma mapM_dict_get_keys d :
  NoDup (dict_keys d) →
  mapM (λ k, dict_get k d) (dict_keys d) = Some (dict_values d).
Proof.
  intros Hnd. apply mapM_Some_2, Forall2_dict_get.
  intros k v ?. by apply dict_get_elem.
Qed.
End dict_facts.

Section list_facts.
Context {A : Type} `{EqDecision A}.
Implicit Types (x y : A) (l : list A).

Lemma list_remove_first_sublist x l : sublist (list_remove_first x l) l.
Proof.
  induction l as [|y l IH]; simpl; [done|].
  case_decide; [by apply sublist_cons | by apply sublist_skip].
Qed.

Lemma elem_of_list_remove_first x y l :
  NoDup l → y ∈ list_remove_first x l ↔ y ∈ l ∧ y ≠ x.
Proof.
  induction l as [|z l IH]; simpl.
  - intros _. split; [by intros ?%elem_of_nil | by intros [?%elem_of_nil _]].
  - rewrite NoDup_cons. intros [Hz Hnd]. case_decide; subst.
    + rewrite elem_of_cons. naive_solver.
    + rewrite !elem_of_cons, (IH Hnd). naive_solver.
Qed.

Lemma list_remove_first_ne x y l :
  y ≠ x → y ∈ l → y ∈ list_remove_first x l.
Proof.
  intros Hne. induction l as [|z l IH]; simpl; [done|].
  rewrite elem_of_cons. case_decide; subst.
  - naive_solver.
  - rewrite elem_of_cons. naive_solver.
Qed.

Lemma length_list_remove_first x l :
  x ∈ l → S (length (list_remove_first x l)) = length l.
Proof.
  induction l as [|y l IH]; simpl; [by intros ?%elem_of_nil|].
  rewrite elem_of_cons. case_decide; [done|].
  intros [->|?]; [done|]. simpl. f_equal. auto.
Qed.
End list_facts.

Lemma py_min_le x l y : y ∈ x :: l → py_min x l ≤ y.
Proof.
  revert x. induction l as [|z l IH]; intros x; simpl.
  - intros ->%list_elem_of_singleton. done.
  - rewrite elem_of_cons. intros [->|Hy]; [lia|].
    specialize (IH _ Hy). lia.
Qed.

Lemma py_min_elem x l : py_min x l ∈ x :: l.
Proof.
  revert x. induction l as [|z l IH]; intros x; simpl.
  - apply list_elem_of_here.
  - destruct (Nat.min_spec x (py_min z l)) as [[_ ->]|[_ ->]].
    + apply list_elem_of_here.
    + apply list_elem_of_further, IH.
Qed.

(** ** The shape of a room: consequences *)

Lemma room_ok_length r :
  room_ok r → 1 ≤ length (clients r) ∧ length (clients r) ≤ 2.
Proof.
  intros [Hnd Hkeys Hnum Hdist _ Hne]. split.
  - destruct (clients r); [done | simpl; lia].
  - rewrite <- Hkeys. unfold dict_keys. rewrite length_fmap.
    rewrite <- (length_fmap snd).
    change (length (dict_values (players r)) ≤ length [1; 2]).
    apply submseteq_length, NoDup_submseteq; [done|].
    intros n Hn. destruct (Hnum n Hn) as [-> | ->]; set_solver.
Qed.

Lemma room_ok_taken r :
  room_ok r →
  mapM (λ client, dict_get client (players r)) (clients r)
  = Some (dict_values (players r)).
Proof.
  intros Hok. rewrite <- (ok_keys _ Hok).
  apply mapM_dict_get_keys. rewrite (ok_keys _ Hok). apply Hok.
Qed.

Lemma room_ok_member r websocket :
  room_ok r → websocket ∈ clients r → is_Some (dict_get websocket (players r)).
Proof.
  intros Hok Hin. rewrite <- (ok_keys _ Hok) in Hin.
  destruct (dict_get websocket (players r)) eqn:Hget; [by eexists|].
  by apply dict_get_None in Hget.
Qed.

(** *** The available numbers *)

Lemma elem_of_available_numbers taken i :
  i ∈ available_numbers taken ↔ (i ∉ taken) ∧ (i = 1 ∨ i = 2).
Proof.
  unfold available_numbers. rewrite list_elem_of_filter. simpl.
  rewrite !elem_of_cons, elem_of_nil. intuition.
Qed.

Lemma new_player_number_spec available :
  available ≠ [] →
  new_player_number available ∈ available
  ∧ ∀ i, i ∈ available → new_player_number available ≤ i.
Proof.
  destruct available as [|i rest]; [done|]. intros _. simpl. split.
  - apply py_min_elem.
  - intros j. apply py_min_le.
Qed.

Lemma available_numbers_short taken :
  length taken < 2 → available_numbers taken ≠ [].
Proof.
  intros Hlen Hnil.
  assert (1 ∈ taken) as H1.
  { destruct (decide (1 ∈ taken)) as [|Hn]; [done|].
    assert (1 ∈ available_numbers taken) as Hin
      by (apply elem_of_available_numbers; auto).
    rewrite Hnil in Hin. by apply elem_of_nil in Hin. }
  assert (2 ∈ taken) as H2.
  { destruct (decide (2 ∈ taken)) as [|Hn]; [done|].
    assert (2 ∈ available_numbers taken) as Hin
      by (apply elem_of_available_numbers; auto).
    rewrite Hnil in Hin. by apply elem_of_nil in Hin. }
  destruct taken as [|a [|b taken]]; simpl in Hlen; [| |lia].
  - by apply elem_of_nil in H1.
  - apply list_elem_of_singleton in H1, H2. lia.
Qed.

(** *** The three changes of a room keep its shape *)

Lemma room_ok_created websocket : room_ok (Room [websocket] [(websocket, 1)] {[1]}).
Proof.
  split; simpl.
  - apply NoDup_singleton.
  - done.
  - intros n ->%list_elem_of_singleton. by left.
  - apply NoDup_singleton.
  - intros n. set_solver.
  - done.
Qed.

Lemma room_ok_joined r websocket :
  room_ok r → websocket ∉ clients r → length (clients r) < 2 →
  let player_number :=
    new_player_number (available_numbers (dict_values (players r))) in
  room_ok (Room (clients r ++ [websocket])
             (dict_set websocket player_number (players r))
             ({[player_number]} ∪ used_player_numbers r)).
Proof.
  intros Hok Hnew Hlen player_number.
  assert (websocket ∉ dict_keys (players r)) as Hkey
    by (by rewrite (ok_keys _ Hok)).
  assert (length (dict_values (players r)) < 2) as Hshort.
  { unfold dict_values. rewrite length_fmap, <- (length_fmap fst).
    fold (dict_keys (players r)). by rewrite (ok_keys _ Hok). }
  destruct (new_player_number_spec _ (available_numbers_short _ Hshort))
    as [[Hfree Hrange]%elem_of_available_numbers _].
  fold player_number in Hfree, Hrange.
  split; simpl.
  - apply NoDup_app. split_and!; [apply (ok_members _ Hok) | | apply NoDup_singleton].
    intros c Hc ->%list_elem_of_singleton. done.
  - rewrite dict_keys_set_new by done. by rewrite (ok_keys _ Hok).
  - rewrite dict_values_set_new by done. intros n [Hn|Hn%list_elem_of_singleton]%elem_of_app.
    + by apply (ok_numbers _ Hok).
    + by subst.
  - rewrite dict_values_set_new by done.
    apply NoDup_app. split_and!; [apply (ok_distinct _ Hok) | | apply NoDup_singleton].
    intros n Hn ->%list_elem_of_singleton. done.
  - rewrite dict_values_set_new by done. intros n.
    rewrite elem_of_union, elem_of_singleton, elem_of_app, list_elem_of_singleton.
    rewrite (ok_used _ Hok). tauto.
  - by destruct (clients r).
Qed.

Lemma room_ok_left r websocket :
  room_ok r → websocket ∈ clients r →
  list_remove_first websocket (clients r) ≠ [] →
  room_ok (Room (list_remove_first websocket (clients r))
             (dict_del websocket (players r))
             (match dict_get websocket (players r) with
              | Some n => used_player_numbers r ∖ {[n]}
              | None => used_player_numbers r
              end)).
Proof.
  intros Hok Hin Hne.
  destruct (room_ok_member _ _ Hok Hin) as [n Hn]. rewrite Hn.
  split; simpl.
  - eapply sublist_NoDup; [apply (ok_members _ Hok) | apply list_remove_first_sublist].
  - by rewrite dict_keys_del, (ok_keys _ Hok).
  - intros m Hm. apply (ok_numbers _ Hok).
    eapply elem_of_sublist; [done | apply dict_values_del_sublist].
  - eapply sublist_NoDup; [apply (ok_distinct _ Hok) | apply dict_values_del_sublist].
  - intros m. rewrite (dict_values_del _ _ _ _ (ok_distinct _ Hok) Hn).
    rewrite elem_of_difference, elem_of_singleton, (ok_used _ Hok). done.
  - done.
Qed.

(** *** Every operation keeps the shape of all rooms *)

Lemma rooms_ok_insert st key r cr :
  rooms_ok st → room_ok r → rooms_ok (State (<[key := r]> (rooms st)) cr).
Proof.
  intros Hst Hr key' r'. simpl. rewrite lookup_insert.
  case_decide; [by intros [= <-] | apply Hst].
Qed.

Lemma rooms_ok_delete st key cr :
  rooms_ok st → rooms_ok (State (delete key (rooms st)) cr).
Proof.
  intros Hst key' r'. simpl. rewrite lookup_delete.
  case_decide; [done | apply Hst].
Qed.

Lemma rooms_ok_cleanup_player net st websocket :
  rooms_ok st → rooms_ok (cleanup_player net st websocket).1.
Proof.
  intros Hst. unfold cleanup_player.
  destruct (client_rooms st !! websocket) as [room_id|]; [|done].
  case_decide; [done|]. simpl.
  destruct (rooms st !! py_key room_id) as [r|] eqn:Hr; [|done].
  case_decide as Hin; [|done]. simpl.
  destruct (list_remove_first websocket (clients r)) eqn:Hrest.
  - by apply rooms_ok_delete.
  - apply rooms_ok_insert; [done|]. rewrite <- Hrest.
    apply room_ok_left; [by eapply Hst | done | by rewrite Hrest].
Qed.

Lemma rooms_ok_forward net websocket msg snapshot st n :
  rooms_ok st → rooms_ok (forward net websocket msg snapshot st n).1.1.
Proof.
  revert st n. induction snapshot as [|client snapshot IH]; intros st n Hst;
    simpl; [done|].
  case_decide; [by apply IH|].
  destruct (net client).
  - specialize (IH st (S n) Hst).
    by destruct (forward net websocket msg snapshot st (S n)) as [[??]?].
  - pose proof (rooms_ok_cleanup_player net st client Hst) as Hst'.
    destruct (cleanup_player net st client) as [st' notices].
    specialize (IH st' n Hst').
    by destruct (forward net websocket msg snapshot st' n) as [[??]?].
  - specialize (IH st n Hst).
    by destruct (forward net websocket msg snapshot st n) as [[??]?].
Qed.

Lemma rooms_ok_handler_body net st websocket message :
  rooms_ok st → rooms_ok (handler_body net st websocket message).1.1.
Proof.
  intros Hst. unfold handler_body.
  destruct message as [| |[a|items|data]]; try done.
  destruct (dict_get "room_id"%string data) as [[room_id|?|?]|]; try done.
  destruct (rooms st !! py_key room_id) as [r|] eqn:Hr.
  - case_decide as Hin.
    + unfold handler_relay.
      destruct (dict_get websocket (players r)) as [player_number|]; [|done].
      pose proof (rooms_ok_forward net websocket
        (DataTransfer data player_number) (clients r) st 0 Hst) as Hst'.
      by destruct (forward _ _ _ _ _ _) as [[??]?].
    + unfold handler_join. case_decide as Hfull; [done|].
      rewrite (room_ok_taken r) by (by eapply Hst).
      assert (rooms_ok (State
        (<[py_key room_id :=
             Room (clients r ++ [websocket])
               (dict_set websocket
                  (new_player_number
                     (available_numbers (dict_values (players r))))
                  (players r))
               ({[new_player_number
                    (available_numbers (dict_values (players r)))]}
                ∪ used_player_numbers r)]> (rooms st))
        (<[websocket := room_id]> (client_rooms st)))) as Hst'.
      { apply rooms_ok_insert; [done|].
        apply room_ok_joined; [by eapply Hst | done | lia]. }
      by destruct (net websocket).
  - apply rooms_ok_insert; [done | apply room_ok_created].
Qed.

Lemma reachable_rooms_ok st : reachable st → rooms_ok st.
Proof.
  induction 1.
  - intros key r. simpl. by rewrite lookup_empty.
  - by apply rooms_ok_handler_body.
  - by apply rooms_ok_cleanup_player.
Qed.

Lemma reachable_st_created : reachable st_created.
Proof. apply reachable_message, reachable_initial. Qed.

Lemma reachable_st_joined : reachable st_joined.
Proof. apply reachable_message, reachable_st_created. Qed.

Lemma reachable_st_left : reachable st_left.
Proof. apply reachable_cleanup, reachable_st_joined. Qed.

Lemma reachable_st_rejoined : reachable st_rejoined.
Proof. apply reachable_message, reachable_st_left. Qed.

(** ** Creating a room *)

(** C4: a well-formed message whose room id is not a key of [rooms] creates
    the room with the sender as its only client and player 1, records the
    sender in [client_rooms], and replies [room_created] with the room id,
    player number 1, one current player and a maximum of two. *)
Theorem create_room_first_player net st websocket data room_id :
  dict_get "room_id"%string data = Some (JAtom room_id) →
  rooms st !! py_key room_id = None →
  ∃ st',
    handler_body net st websocket (Decoded (JObj data))
    = (st', [Send websocket (RoomCreated room_id 1 1 2) (net websocket)],
       outcome_of (net websocket))
    ∧ rooms st'
      = <[py_key room_id := Room [websocket] [(websocket, 1)] {[1]}]> (rooms st)
    ∧ rooms st' !! py_key room_id = Some (Room [websocket] [(websocket, 1)] {[1]})
    ∧ client_rooms st' = <[websocket := room_id]> (client_rooms st)
    ∧ client_rooms st' !! websocket = Some room_id.
Proof.
  intros Hid Hnew. eexists. unfold handler_body. rewrite Hid, Hnew.
  unfold handler_create, reply. simpl.
  split_and!; [reflexivity | done | apply lookup_insert_eq | done
              | apply lookup_insert_eq].
Qed.

Lemma create_room_first_player_witness :
  ∃ st',
    handler_body all_sent initial 1 (Decoded (JObj (envelope "r1")))
    = (st', [Send 1 (RoomCreated (AStr "r1") 1 1 2) Sent], Continue)
    ∧ client_rooms st' !! 1 = Some (AStr "r1").
Proof.
  destruct (create_room_first_player all_sent initial 1 (envelope "r1")
              (AStr "r1") eq_refl eq_refl) as (st' & Hrun & _ & _ & _ & Hcr).
  exists st'. split; [exact Hrun | exact Hcr].
Defined.

(** ** A full room *)

(** C6: when the room already has two clients, a message of a connection
    that is not one of them is answered with [room_full], carrying the
    current count and the maximum, and the state is the same afterwards. *)
Theorem full_room_rejects net st websocket data room_id r :
  dict_get "room_id"%string data = Some (JAtom room_id) →
  rooms st !! py_key room_id = Some r →
  length (clients r) = 2 →
  websocket ∉ clients r →
  handler_body net st websocket (Decoded (JObj data))
  = (st, [Send websocket (RoomFull room_id 2 2) (net websocket)],
     outcome_of (net websocket)).
Proof.
  intros Hid Hr Hlen Hnew. unfold handler_body. rewrite Hid, Hr.
  rewrite decide_False by done. unfold handler_join.
  rewrite decide_True by lia. by rewrite Hlen.
Qed.

Lemma full_room_rejects_witness :
  handler_body all_sent st_joined 3 (Decoded (JObj (envelope "r1")))
  = (st_joined, [Send 3 (RoomFull (AStr "r1") 2 2) Sent], Continue).
Proof.
  apply (full_room_rejects all_sent st_joined 3 (envelope "r1") (AStr "r1")
           (Room [1; 2] [(1, 1); (2, 2)] {[2; 1]})).
  - reflexivity.
  - vm_compute. reflexivity.
  - reflexivity.
  - intros Hin. by repeat (apply elem_of_cons in Hin as [?|Hin]; [done|]);
      apply elem_of_nil in Hin.
Defined.

(** ** Malformed messages *)




(** ** Cleaning up twice *)

Lemma cleanup_player_pops net st websocket :
  client_rooms (cleanup_player net st websocket).1 !! websocket = None.
Proof.
  unfold cleanup_player.
  destruct (client_rooms st !! websocket) as [room_id|] eqn:Hcr; [|done].
  case_decide; simpl; [apply lookup_delete_eq|].
  destruct (rooms st !! py_key room_id) as [r|]; simpl;
    [|apply lookup_delete_eq].
  case_decide; simpl; apply lookup_delete_eq.
Qed.

(** C9: for a connection that is not a key of [client_rooms] (as after a
    first cleanup of that connection), [cleanup_player] returns at once:
    nothing is sent, and [rooms] and [client_rooms] are as before. *)
Theorem cleanup_player_idempotent net st websocket :
  client_rooms st !! websocket = None →
  cleanup_player net st websocket = (st, []).
Proof. intros Hgone. unfold cleanup_player. by rewrite Hgone. Qed.

Lemma cleanup_player_idempotent_witness :
  cleanup_player all_sent st_left 1 = (st_left, []).
Proof.
  apply (cleanup_player_idempotent all_sent st_left 1).
  vm_compute. reflexivity.
Defined.

(** Whatever the state, a second cleanup of the same connection does
    nothing. *)
Lemma cleanup_player_twice net net' st websocket :
  cleanup_player net (cleanup_player net' st websocket).1 websocket
  = ((cleanup_player net' st websocket).1, []).
Proof.
  unfold cleanup_player at 1. by rewrite cleanup_player_pops.
Qed.

(** ** The number given to a joiner *)

(** C10: in the join branch the room has fewer than two clients; when the
    clients hold distinct numbers among 1 and 2, the list of available
    numbers is not empty, so the number given to the joiner is the minimum
    of that list and never the fallback 2 of the empty list. *)
Theorem available_numbers_nonempty r taken :
  length (clients r) < 2 →
  mapM (λ client, dict_get client (players r)) (clients r) = Some taken →
  NoDup taken →
  (∀ n, n ∈ taken → n = 1 ∨ n = 2) →
  ∃ i rest,
    available_numbers taken = i :: rest
    ∧ new_player_number (available_numbers taken) = py_min i rest
    ∧ py_min i rest ∈ available_numbers taken.
Proof.
  intros Hlen Htaken _ _.
  apply length_mapM in Htaken.
  destruct (available_numbers taken) as [|i rest] eqn:Hav.
  - exfalso. apply (available_numbers_short taken); [lia | done].
  - exists i, rest. split_and!; [done | done | apply py_min_elem].
Qed.

Lemma available_numbers_nonempty_witness :
  ∃ i rest,
    available_numbers [2] = i :: rest
    ∧ new_player_number (available_numbers [2]) = py_min i rest
    ∧ py_min i rest ∈ available_numbers [2].
Proof.
  apply (available_numbers_nonempty (Room [5] [(5, 2)] {[2]}) [2]).
  - simpl. lia.
  - reflexivity.
  - apply NoDup_singleton.
  - intros n ->%list_elem_of_singleton. by right.
Defined.

(** The number computed in the join branch of a room in shape is the
    smallest free one. *)
Lemma new_player_number_smallest_free r :
  room_ok r → length (clients r) < 2 →
  smallest_free (used_player_numbers r)
    (new_player_number (available_numbers (dict_values (players r)))).
Proof.
  intros Hok Hlen.
  assert (length (dict_values (players r)) < 2) as Hshort.
  { unfold dict_values. rewrite length_fmap, <- (length_fmap fst).
    fold (dict_keys (players r)). by rewrite (ok_keys _ Hok). }
  destruct (new_player_number_spec _ (available_numbers_short _ Hshort))
    as [[Hfree Hrange]%elem_of_available_numbers Hmin].
  split_and!; [done | by rewrite (ok_used _ Hok) |].
  intros m Hm Hfree_m. apply Hmin, elem_of_available_numbers.
  by rewrite <- (ok_used _ Hok).
Qed.

(** What the join branch does in a room in shape with a free place. *)
Lemma handler_join_ok net st websocket room_id r :
  room_ok r → length (clients r) < 2 →
  let player_number :=
    new_player_number (available_numbers (dict_values (players r))) in
  let r' :=
    Room (clients r ++ [websocket])
      (dict_set websocket player_number (players r))
      ({[player_number]} ∪ used_player_numbers r) in
  let joined :=
    Send websocket
      (RoomJoined room_id player_number (length (clients r')) 2
         (dict_values (players r')))
      (net websocket) in
  handler_join net st websocket room_id r
  = (State (<[py_key room_id := r']> (rooms st))
       (<[websocket := room_id]> (client_rooms st)),
     joined
     :: match net websocket with
        | Sent =>
            (λ client,
               Send client
                 (PlayerJoined room_id player_number (length (clients r'))
                    (dict_values (players r')))
                 (net client))
              <$> filter (λ client, client ≠ websocket) (clients r')
        | _ => []
        end,
     outcome_of (net websocket)).
Proof.
  intros Hok Hlen. simpl. unfold handler_join.
  rewrite decide_False by lia. rewrite (room_ok_taken r Hok).
  by destruct (net websocket).
Qed.

Lemma handler_body_join net st websocket data room_id r :
  dict_get "room_id"%string data = Some (JAtom room_id) →
  rooms st !! py_key room_id = Some r →
  websocket ∉ clients r →
  handler_body net st websocket (Decoded (JObj data))
  = handler_join net st websocket room_id r.
Proof.
  intros Hid Hr Hnew. unfold handler_body.
  by rewrite Hid, Hr, decide_False.
Qed.

(** In a room of two, both numbers are in use. *)
Lemma room_ok_two_numbers r n :
  room_ok r → length (clients r) = 2 → n = 1 ∨ n = 2 →
  n ∈ used_player_numbers r.
Proof.
  intros Hok Hlen Hn. rewrite (ok_used _ Hok).
  assert (length (dict_values (players r)) = 2) as Hvals.
  { unfold dict_values. rewrite length_fmap, <- (length_fmap fst).
    fold (dict_keys (players r)). by rewrite (ok_keys _ Hok). }
  pose proof (ok_numbers _ Hok) as Hnum.
  pose proof (ok_distinct _ Hok) as Hdist.
  destruct (dict_values (players r)) as [|a [|b [|c l]]]; simplify_eq/=.
  apply NoDup_cons in Hdist as [Hab%not_elem_of_cons _].
  assert (a = 1 ∨ a = 2) as Ha by (apply Hnum; set_solver).
  assert (b = 1 ∨ b = 2) as Hb by (apply Hnum; set_solver).
  rewrite !elem_of_cons. lia.
Qed.

(** What [cleanup_player] does for a client of the room it is recorded in. *)
Lemma cleanup_player_member net st websocket room_id r :
  client_rooms st !! websocket = Some room_id →
  room_id ≠ ANull →
  rooms st !! py_key room_id = Some r →
  websocket ∈ clients r →
  let player_number := dict_get websocket (players r) in
  let r' :=
    Room (list_remove_first websocket (clients r))
      (dict_del websocket (players r))
      (match player_number with
       | Some n => used_player_numbers r ∖ {[n]}
       | None => used_player_numbers r
       end) in
  cleanup_player net st websocket
  = (State
       (match clients r' with
        | [] => delete (py_key room_id) (rooms st)
        | _ :: _ => <[py_key room_id := r']> (rooms st)
        end)
       (delete websocket (client_rooms st)),
     (λ client,
        Send client
          (PlayerLeft room_id player_number (length (clients r'))
             (dict_values (players r')))
          (net client)) <$> clients r').
Proof.
  intros Hcr Hnull Hr Hin. simpl. unfold cleanup_player.
  rewrite Hcr, decide_False by done. simpl.
  by rewrite Hr, decide_True.
Qed.

Arguments handler_body : simpl never.

Lemma join_one_member net st websocket data room_id r member :
  rooms_ok st →
  dict_get "room_id"%string data = Some (JAtom room_id) →
  rooms st !! py_key room_id = Some r →
  clients r = [member] →
  websocket ≠ member →
  ∃ st' player_number players_list notices,
    handler_body net st websocket (Decoded (JObj data))
    = (st',
       Send websocket (RoomJoined room_id player_number 2 2 players_list)
         (net websocket) :: notices,
       outcome_of (net websocket))
    ∧ smallest_free (used_player_numbers r) player_number
    ∧ ∃ r', rooms st' !! py_key room_id = Some r'
            ∧ dict_get websocket (players r') = Some player_number.
Proof.
  intros Hst Hid Hr Hone Hne.
  assert (room_ok r) as Hok by (by eapply Hst).
  assert (length (clients r) < 2) as Hlen by (rewrite Hone; simpl; lia).
  assert (websocket ∉ clients r) as Hnew by (rewrite Hone; set_solver).
  rewrite (handler_body_join _ _ _ _ _ _ Hid Hr Hnew).
  rewrite (handler_join_ok _ _ _ _ _ Hok Hlen). simpl.
  rewrite Hone. simpl.
  eexists _, _, _, _. split_and!.
  - reflexivity.
  - by apply new_player_number_smallest_free.
  - eexists. split; [apply lookup_insert_eq|]. simpl.
    apply dict_get_set_eq.
Qed.

Lemma rejoin_released_number net net' st leaver joiner data room_id left_id r n :
  rooms_ok st →
  dict_get "room_id"%string data = Some (JAtom room_id) →
  rooms st !! py_key room_id = Some r →
  length (clients r) = 2 →
  leaver ∈ clients r →
  joiner ∉ clients r →
  dict_get leaver (players r) = Some n →
  client_rooms st !! leaver = Some left_id →
  left_id ≠ ANull →
  py_key left_id = py_key room_id →
  (∃ r1, rooms (cleanup_player net st leaver).1 !! py_key room_id = Some r1
         ∧ n ∉ used_player_numbers r1)
  ∧ ∃ st' players_list notices,
      handler_body net' (cleanup_player net st leaver).1 joiner
        (Decoded (JObj data))
      = (st',
         Send joiner (RoomJoined room_id n 2 2 players_list) (net' joiner)
           :: notices,
         outcome_of (net' joiner)).
Proof.
  intros Hst Hid Hr Hlen Hin Hnew Hn Hcr Hnull Hkey.
  assert (room_ok r) as Hok by (by eapply Hst).
  rewrite <- Hkey in Hr.
  pose proof (rooms_ok_cleanup_player net st leaver Hst) as Hst1.
  rewrite (cleanup_player_member _ _ _ _ _ Hcr Hnull Hr Hin) in *.
  simpl in *. rewrite Hn in *.
  pose proof (length_list_remove_first leaver (clients r) Hin) as Hlen1.
  destruct (list_remove_first leaver (clients r)) as [|member [|]] eqn:Hrest;
    simplify_eq/=; try lia.
  set (r1 := Room [member] (dict_del leaver (players r))
               (used_player_numbers r ∖ {[n]})) in *.
  assert (rooms (State (<[py_key left_id := r1]> (rooms st))
                   (delete leaver (client_rooms st))) !! py_key room_id
          = Some r1) as Hr1 by (rewrite <- Hkey; apply lookup_insert_eq).
  split.
  { exists r1. split; [done|]. set_solver. }
  assert (joiner ≠ member) as Hne.
  { intros ->. apply Hnew.
    eapply elem_of_sublist; [|apply (list_remove_first_sublist leaver)].
    rewrite Hrest. set_solver. }
  destruct (join_one_member net' _ joiner data room_id r1 member
              Hst1 Hid Hr1 eq_refl Hne)
    as (st' & p & players_list & notices & Hrun & Hp & _).
  exists st', players_list, notices. rewrite Hrun.
  destruct Hp as (Hrange & Hfree & _). simpl in Hfree.
  assert (p ∈ used_player_numbers r) as Hused
    by (by apply room_ok_two_numbers; [| lia |]).
  assert (p = n) as ->.
  { destruct (decide (p = n)); [done|]. exfalso. apply Hfree.
    apply elem_of_difference. split; [done|]. by rewrite elem_of_singleton. }
  done.
Qed.

(** ** Slot numbers *)

(** C3: in a reachable state, a connection that joins a room with one
    client is given the smallest of the numbers 1 and 2 that is not in use
    in the room; and after a client of a room of two is cleaned up, its
    number is no longer in use and the next connection to join the room is
    given that number. *)
Theorem join_gets_smallest_free st :
  reachable st →
  (∀ net websocket data room_id r member,
     dict_get "room_id"%string data = Some (JAtom room_id) →
     rooms st !! py_key room_id = Some r →
     clients r = [member] →
     websocket ≠ member →
     ∃ st' player_number players_list notices,
       handler_body net st websocket (Decoded (JObj data))
       = (st',
          Send websocket (RoomJoined room_id player_number 2 2 players_list)
            (net websocket) :: notices,
          outcome_of (net websocket))
       ∧ smallest_free (used_player_numbers r) player_number
       ∧ ∃ r', rooms st' !! py_key room_id = Some r'
               ∧ dict_get websocket (players r') = Some player_number)
  ∧ (∀ net net' leaver joiner data room_id left_id r n,
       dict_get "room_id"%string data = Some (JAtom room_id) →
       rooms st !! py_key room_id = Some r →
       length (clients r) = 2 →
       leaver ∈ clients r →
       joiner ∉ clients r →
       dict_get leaver (players r) = Some n →
       client_rooms st !! leaver = Some left_id →
       left_id ≠ ANull →
       py_key left_id = py_key room_id →
       (∃ r1, rooms (cleanup_player net st leaver).1 !! py_key room_id = Some r1
              ∧ n ∉ used_player_numbers r1)
       ∧ ∃ st' players_list notices,
           handler_body net' (cleanup_player net st leaver).1 joiner
             (Decoded (JObj data))
           = (st',
              Send joiner (RoomJoined room_id n 2 2 players_list) (net' joiner)
                :: notices,
              outcome_of (net' joiner))).
Proof.
  intros Hst%reachable_rooms_ok. split.
  - intros. by eapply join_one_member.
  - intros. by eapply rejoin_released_number.
Qed.

Lemma join_gets_smallest_free_witness :
  ∃ st' players_list notices,
    handler_body all_sent (cleanup_player all_sent st_joined 1).1 3
      (Decoded (JObj (envelope "r1")))
    = (st', Send 3 (RoomJoined (AStr "r1") 1 2 2 players_list) Sent :: notices,
       Continue).
Proof.
  destruct (join_gets_smallest_free st_joined reachable_st_joined)
    as [_ Hrejoin].
  destruct (Hrejoin all_sent all_sent 1 3 (envelope "r1") (AStr "r1")
              (AStr "r1") (Room [1; 2] [(1, 1); (2, 2)] {[2; 1]}) 1)
    as [_ Hjoin].
  - reflexivity.
  - vm_compute. reflexivity.
  - reflexivity.
  - apply list_elem_of_here.
  - simpl. set_solver.
  - reflexivity.
  - vm_compute. reflexivity.
  - discriminate.
  - reflexivity.
  - exact Hjoin.
Defined.

(** ** Empty rooms *)

(** C7: in every reachable state each room stored in [rooms] has a client;
    the cleanup of the only client of a room deletes the room from [rooms];
    and the next message with that room id creates the room again, its
    sender being player 1. *)
Theorem empty_room_removed st :
  reachable st →
  (∀ key r, rooms st !! key = Some r → clients r ≠ [])
  ∧ (∀ net websocket room_id r,
       client_rooms st !! websocket = Some room_id →
       room_id ≠ ANull →
       rooms st !! py_key room_id = Some r →
       clients r = [websocket] →
       rooms (cleanup_player net st websocket).1 !! py_key room_id = None
       ∧ ∀ net' creator data room_id',
           dict_get "room_id"%string data = Some (JAtom room_id') →
           py_key room_id' = py_key room_id →
           ∃ st',
             handler_body net' (cleanup_player net st websocket).1 creator
               (Decoded (JObj data))
             = (st',
                [Send creator (RoomCreated room_id' 1 1 2) (net' creator)],
                outcome_of (net' creator))
             ∧ rooms st' !! py_key room_id
               = Some (Room [creator] [(creator, 1)] {[1]})).
Proof.
  intros Hst%reachable_rooms_ok. split.
  - intros key r Hr. by apply (ok_occupied r), (Hst key).
  - intros net websocket room_id r Hcr Hnull Hr Hone.
    assert (websocket ∈ clients r) as Hin by (rewrite Hone; set_solver).
    rewrite (cleanup_player_member _ _ _ _ _ Hcr Hnull Hr Hin).
    rewrite Hone. simpl. rewrite decide_True by done. simpl.
    assert (delete (py_key room_id) (rooms st) !! py_key room_id = None)
      as Hgone by apply lookup_delete_eq.
    split; [done|].
    intros net' creator data room_id' Hid Hkey. rewrite <- Hkey in *.
    eexists. unfold handler_body. rewrite Hid. simpl. rewrite Hgone.
    split; [reflexivity|]. simpl. apply lookup_insert_eq.
Qed.

Lemma empty_room_removed_witness :
  rooms (cleanup_player all_sent st_created 1).1 !! AStr "r1" = None.
Proof.
  destruct (empty_room_removed st_created reachable_st_created) as [_ Hlast].
  destruct (Hlast all_sent 1 (AStr "r1") (Room [1] [(1, 1)] {[1]}))
    as [Hgone _].
  - vm_compute. reflexivity.
  - discriminate.
  - vm_compute. reflexivity.
  - reflexivity.
  - exact Hgone.
Defined.

(** ** Relay *)

Lemma cleanup_player_notices net st websocket :
  Forall (λ e, is_transfer (sent_packet e) = false)
    (cleanup_player net st websocket).2.
Proof.
  unfold cleanup_player.
  destruct (client_rooms st !! websocket) as [room_id|]; [|by constructor].
  case_decide; [by constructor|]. simpl.
  destruct (rooms st !! py_key room_id) as [r|]; [|by constructor].
  case_decide; [|by constructor]. simpl.
  apply Forall_fmap, Forall_true. done.
Qed.

(** The cleanup of one connection leaves every other client in its room, and
    the room in [rooms]. *)
Lemma cleanup_player_keeps_other net st client websocket key r :
  rooms st !! key = Some r →
  websocket ∈ clients r →
  client ≠ websocket →
  ∃ r', rooms (cleanup_player net st client).1 !! key = Some r'
        ∧ websocket ∈ clients r'.
Proof.
  intros Hr Hin Hne. unfold cleanup_player.
  destruct (client_rooms st !! client) as [room_id|]; [|by exists r].
  case_decide; [by exists r|]. simpl.
  destruct (rooms st !! py_key room_id) as [r0|] eqn:Hr0; [|by exists r].
  case_decide as Hin0; [|by exists r]. simpl.
  destruct (decide (py_key room_id = key)) as [<-|Hkey].
  - simplify_eq.
    pose proof (list_remove_first_ne client websocket _ (not_eq_sym Hne) Hin)
      as Hstay.
    destruct (list_remove_first client (clients r)) eqn:Hrest.
    + by apply elem_of_nil in Hstay.
    + eexists. split; [apply lookup_insert_eq | done].
  - exists r. split; [|done].
    destruct (list_remove_first client (clients r0)).
    + by rewrite lookup_delete_ne.
    + by rewrite lookup_insert_ne.
Qed.

(** The loop over a room of two: one attempt, to the other client. *)
Lemma forward_pair net websocket peer msg l st :
  peer ≠ websocket →
  l = [websocket; peer] ∨ l = [peer; websocket] →
  forward net websocket msg l st 0
  = (match net peer with
     | ConnectionClosed => (cleanup_player net st peer).1
     | _ => st
     end,
     Send peer msg (net peer)
       :: match net peer with
          | ConnectionClosed => (cleanup_player net st peer).2
          | _ => []
          end,
     forwarded (net peer)).
Proof.
  intros Hne [-> | ->]; simpl.
  - rewrite decide_True, decide_False by done.
    destruct (net peer); simpl; [done | | done].
    destruct (cleanup_player net st peer). simpl. by rewrite app_nil_r.
  - rewrite decide_False by done.
    destruct (net peer); simpl.
    + by rewrite decide_True.
    + destruct (cleanup_player net st peer). simpl.
      rewrite decide_True by done. by rewrite app_nil_r.
    + by rewrite decide_True.
Qed.

Lemma handler_body_relay net st websocket data room_id r :
  dict_get "room_id"%string data = Some (JAtom room_id) →
  rooms st !! py_key room_id = Some r →
  websocket ∈ clients r →
  handler_body net st websocket (Decoded (JObj data))
  = handler_relay net st websocket room_id r data.
Proof.
  intros Hid Hr Hin. unfold handler_body.
  by rewrite Hid, Hr, decide_True.
Qed.

(** What the relay branch does in a room of two. *)
Lemma handler_relay_pair net st websocket peer data room_id r player_number :
  rooms st !! py_key room_id = Some r →
  dict_get websocket (players r) = Some player_number →
  peer ≠ websocket →
  clients r = [websocket; peer] ∨ clients r = [peer; websocket] →
  let st' :=
    match net peer with
    | ConnectionClosed => (cleanup_player net st peer).1
    | _ => st
    end in
  let notices :=
    match net peer with
    | ConnectionClosed => (cleanup_player net st peer).2
    | _ => []
    end in
  ∃ r',
    rooms st' !! py_key room_id = Some r'
    ∧ websocket ∈ clients r'
    ∧ handler_relay net st websocket room_id r data
      = (st',
         Send peer (DataTransfer data player_number) (net peer)
           :: notices
           ++ [Send websocket
                 (DataReceived room_id (forwarded (net peer))
                    (length (clients r')))
                 (net websocket)],
         outcome_of (net websocket)).
Proof.
  intros Hr Hpn Hne Hpair. simpl.
  assert (websocket ∈ clients r) as Hin by (destruct Hpair as [-> | ->]; set_solver).
  assert (∃ r',
    rooms (match net peer with
           | ConnectionClosed => (cleanup_player net st peer).1
           | _ => st
           end) !! py_key room_id = Some r' ∧ websocket ∈ clients r')
    as (r' & Hr' & Hin').
  { destruct (net peer); [by exists r | | by exists r].
    by eapply cleanup_player_keeps_other. }
  exists r'. split_and!; [done | done |].
  unfold handler_relay. rewrite Hpn.
  rewrite (forward_pair net websocket peer _ _ st Hne Hpair).
  rewrite Hr'. unfold reply. done.
Qed.

(** C5: in a room of two, a message of one client is forwarded to the other
    client once: the whole decoded object, in a [data_transfer] envelope with
    the number of the sender as [from_player]; the sender is then sent
    [data_received] with the number of forwards that went out and the number
    of clients now in the room.  A client alone in its room is sent
    [data_received] with 0 forwards, and nothing else happens. *)
Theorem relay_to_the_other_client net st websocket data room_id r player_number :
  dict_get "room_id"%string data = Some (JAtom room_id) →
  rooms st !! py_key room_id = Some r →
  dict_get websocket (players r) = Some player_number →
  (∀ peer,
     peer ≠ websocket →
     clients r = [websocket; peer] ∨ clients r = [peer; websocket] →
     ∃ st' notices r',
       handler_body net st websocket (Decoded (JObj data))
       = (st',
          Send peer (DataTransfer data player_number) (net peer)
            :: notices
            ++ [Send websocket
                  (DataReceived room_id (forwarded (net peer))
                     (length (clients r')))
                  (net websocket)],
          outcome_of (net websocket))
       ∧ rooms st' !! py_key room_id = Some r'
       ∧ Forall (λ e, is_transfer (sent_packet e) = false) notices
       ∧ (net peer ≠ ConnectionClosed → st' = st ∧ notices = []))
  ∧ (clients r = [websocket] →
     handler_body net st websocket (Decoded (JObj data))
     = (st, [Send websocket (DataReceived room_id 0 1) (net websocket)],
        outcome_of (net websocket))).
Proof.
  intros Hid Hr Hpn. split.
  - intros peer Hne Hpair.
    assert (websocket ∈ clients r) as Hin
      by (destruct Hpair as [-> | ->]; set_solver).
    rewrite (handler_body_relay _ _ _ _ _ _ Hid Hr Hin).
    destruct (handler_relay_pair net st websocket peer data room_id r
                player_number Hr Hpn Hne Hpair) as (r' & Hr' & _ & Hrun).
    eexists _, _, r'. split_and!; [exact Hrun | exact Hr' | |].
    + destruct (net peer); [by constructor | | by constructor].
      apply cleanup_player_notices.
    + by destruct (net peer).
  - intros Hone.
    assert (websocket ∈ clients r) as Hin by (rewrite Hone; set_solver).
    rewrite (handler_body_relay _ _ _ _ _ _ Hid Hr Hin).
    unfold handler_relay. rewrite Hpn, Hone. simpl.
    rewrite decide_True by done. rewrite Hr, Hone. done.
Qed.

Lemma relay_to_the_other_client_witness :
  handler_body all_sent st_joined 1
    (Decoded (JObj (envelope "r1" ++ [("move"%string, JAtom (AStr "x"))])))
  = (st_joined,
     [Send 2
        (DataTransfer (envelope "r1" ++ [("move"%string, JAtom (AStr "x"))]) 1)
        Sent;
      Send 1 (DataReceived (AStr "r1") 1 2) Sent],
     Continue).
Proof.
  destruct (relay_to_the_other_client all_sent st_joined 1
              (envelope "r1" ++ [("move"%string, JAtom (AStr "x"))])
              (AStr "r1") (Room [1; 2] [(1, 1); (2, 2)] {[2; 1]}) 1)
    as [Hpair _].
  - reflexivity.
  - vm_compute. reflexivity.
  - reflexivity.
  - destruct (Hpair 2) as (st' & notices & r' & Hrun & Hr' & _ & Hsame).
    + discriminate.
    + by left.
    + destruct Hsame as [-> ->]; [discriminate|].
      rewrite Hrun. vm_compute in Hr'. by simplify_eq.
Defined.

(** ** Failed sends to the other client *)

Lemma room_ok_pair r websocket peer :
  room_ok r → websocket ∈ clients r → peer ∈ clients r → peer ≠ websocket →
  clients r = [websocket; peer] ∨ clients r = [peer; websocket].
Proof.
  intros Hok Hws Hpeer Hne.
  destruct (room_ok_length r Hok) as [_ Hlen].
  destruct (clients r) as [|a [|b [|c l]]]; simpl in Hlen; [| | |lia].
  - by apply elem_of_nil in Hws.
  - apply list_elem_of_singleton in Hws, Hpeer. congruence.
  - rewrite !elem_of_cons, elem_of_nil in Hws, Hpeer.
    destruct Hws as [->|[->|[]]], Hpeer as [->|[->|[]]]; tauto.
Qed.

Lemma handler_relay_outcome net st websocket room_id r data player_number :
  dict_get websocket (players r) = Some player_number →
  (handler_relay net st websocket room_id r data).2
  = outcome_of (net websocket).
Proof.
  intros Hpn. unfold handler_relay. rewrite Hpn.
  by destruct (forward _ _ _ _ _ _) as [[??]?].
Qed.

Lemma handler_body_outcome net st websocket data room_id :
  rooms_ok st →
  dict_get "room_id"%string data = Some (JAtom room_id) →
  (handler_body net st websocket (Decoded (JObj data))).2
  = outcome_of (net websocket).
Proof.
  intros Hst Hid. unfold handler_body. rewrite Hid.
  destruct (rooms st !! py_key room_id) as [r|] eqn:Hr; [|done].
  assert (room_ok r) as Hok by (by eapply Hst).
  case_decide as Hin.
  - destruct (room_ok_member r websocket Hok Hin) as [pn Hpn].
    by eapply handler_relay_outcome.
  - destruct (decide (2 ≤ length (clients r))) as [Hfull|Hfree].
    + unfold handler_join. by rewrite decide_True.
    + by rewrite handler_join_ok by (done || lia).
Qed.

Lemma cleanup_player_state net net' st websocket :
  (cleanup_player net st websocket).1 = (cleanup_player net' st websocket).1.
Proof.
  unfold cleanup_player.
  destruct (client_rooms st !! websocket) as [room_id|]; [|done].
  case_decide; [done|]. simpl.
  destruct (rooms st !! py_key room_id) as [r|]; [|done].
  by case_decide.
Qed.

Lemma handler_join_state net net' st websocket room_id r :
  (handler_join net st websocket room_id r).1.1
  = (handler_join net' st websocket room_id r).1.1.
Proof.
  unfold handler_join. case_decide; [done|].
  destruct (mapM _ _); [|done].
  by destruct (net websocket), (net' websocket).
Qed.

(** What a failed send to another client of the room does in a reachable
    state.  It never fails the operation for the sender, whose loop goes on
    or stops with its own link alone.  When a forward finds the connection
    of the other client closed, [cleanup_player] is run for that client
    before the sender is acknowledged with 0 forwards; for any other error
    of a forward nothing changes.  The [player_joined] and [player_left]
    notices are only attempted: the state after a join or a cleanup is the
    one reached when every send goes out. *)
Theorem peer_send_failure st :
  reachable st →
  (∀ net websocket data room_id,
     dict_get "room_id"%string data = Some (JAtom room_id) →
     (handler_body net st websocket (Decoded (JObj data))).2
     = outcome_of (net websocket))
  ∧ (∀ net websocket peer data room_id r,
       dict_get "room_id"%string data = Some (JAtom room_id) →
       rooms st !! py_key room_id = Some r →
       websocket ∈ clients r → peer ∈ clients r → peer ≠ websocket →
       (net peer = ConnectionClosed →
        ∃ player_number count,
          handler_body net st websocket (Decoded (JObj data))
          = ((cleanup_player net st peer).1,
             Send peer (DataTransfer data player_number) ConnectionClosed
               :: (cleanup_player net st peer).2
               ++ [Send websocket (DataReceived room_id 0 count)
                     (net websocket)],
             outcome_of (net websocket)))
       ∧ (net peer = OtherError →
          (handler_body net st websocket (Decoded (JObj data))).1.1 = st))
  ∧ (∀ net websocket data room_id r,
       dict_get "room_id"%string data = Some (JAtom room_id) →
       rooms st !! py_key room_id = Some r →
       websocket ∉ clients r →
       (handler_body net st websocket (Decoded (JObj data))).1.1
       = (handler_body all_sent st websocket (Decoded (JObj data))).1.1)
  ∧ (∀ net websocket,
       (cleanup_player net st websocket).1
       = (cleanup_player all_sent st websocket).1).
Proof.
  intros Hst%reachable_rooms_ok. split_and!.
  - intros. by eapply handler_body_outcome.
  - intros net websocket peer data room_id r Hid Hr Hin Hpeer Hne.
    assert (room_ok r) as Hok by (by eapply Hst).
    destruct (room_ok_member r websocket Hok Hin) as [pn Hpn].
    pose proof (room_ok_pair r websocket peer Hok Hin Hpeer Hne) as Hpair.
    rewrite (handler_body_relay _ _ _ _ _ _ Hid Hr Hin).
    destruct (handler_relay_pair net st websocket peer data room_id r pn
                Hr Hpn Hne Hpair) as (r' & _ & _ & Hrun).
    rewrite Hrun. split.
    + intros Hclosed. rewrite Hclosed. simpl. by eexists _, _.
    + intros Herr. by rewrite Herr.
  - intros net websocket data room_id r Hid Hr Hnew.
    rewrite !(handler_body_join _ _ _ _ _ _ Hid Hr Hnew).
    apply handler_join_state.
  - intros. apply cleanup_player_state.
Qed.

Lemma peer_send_failure_witness :
  (handler_body (closed_for 2) st_joined 1 (Decoded (JObj (envelope "r1")))).2
  = Continue.
Proof.
  destruct (peer_send_failure st_joined reachable_st_joined) as [Hgoes _].
  exact (Hgoes (closed_for 2) 1 (envelope "r1") (AStr "r1") eq_refl).
Defined.

(** C2 does not hold of the notices.  Connection 2 joins the room of
    connection 1 while the connection of 1 is closed: the [player_joined]
    notice to 1 fails, the join goes on, and 1 is still a client of the room
    and a key of [client_rooms].  Its cleanup was not run (it would delete
    the entry), although the relay branch runs it in this very case (lines
    174-176).  The same holds for the [player_left] notice sent to 1 when 2
    is cleaned up. *)
Lemma failed_notice_no_cleanup :
  handler_body (closed_for 1) st_created 2 (Decoded (JObj (envelope "r1")))
  = (st_joined,
     [Send 2 (RoomJoined (AStr "r1") 2 2 2 [1; 2]) Sent;
      Send 1 (PlayerJoined (AStr "r1") 2 2 [1; 2]) ConnectionClosed],
     Continue)
  ∧ rooms st_joined !! AStr "r1" = Some (Room [1; 2] [(1, 1); (2, 2)] {[2; 1]})
  ∧ client_rooms st_joined !! 1 = Some (AStr "r1")
  ∧ client_rooms (cleanup_player (closed_for 1) st_joined 1).1 !! 1 = None
  ∧ (cleanup_player (closed_for 1) st_joined 2).2
    = [Send 1 (PlayerLeft (AStr "r1") (Some 2) 1 [1]) ConnectionClosed]
  ∧ rooms (cleanup_player (closed_for 1) st_joined 2).1 !! AStr "r1"
    = Some (Room [1] [(1, 1)] {[1]})
  ∧ client_rooms (cleanup_player (closed_for 1) st_joined 2).1 !! 1
    = Some (AStr "r1").
Proof. vm_compute. by split_and!. Qed.

(** ** The list of players sent on a join *)

Lemma filter_others (websocket : conn) (l : list conn) :
  websocket ∉ l →
  filter (λ client, client ≠ websocket) (l ++ [websocket]) = l.
Proof.
  intros Hnew. rewrite filter_app. simpl.
  rewrite (filter_cons_False _ websocket) by (intros ?; done).
  simpl. rewrite app_nil_r.
  induction l as [|c l IH]; [done|].
  apply not_elem_of_cons in Hnew as [Hne Hnew].
  rewrite filter_cons_True by done. by rewrite IH.
Qed.

(** C1, as the program has it: on a join into a room with a free place, the
    [room_joined] reply and the [player_joined] notice to every other client
    carry the same list: the numbers of the clients in the order in which
    they came into the room, the number of the joiner last.  These are the
    numbers in use in the room, each once. *)
Theorem join_players_list st net websocket data room_id r :
  reachable st →
  dict_get "room_id"%string data = Some (JAtom room_id) →
  rooms st !! py_key room_id = Some r →
  websocket ∉ clients r →
  length (clients r) < 2 →
  ∃ st' r' player_number players_list,
    handler_body net st websocket (Decoded (JObj data))
    = (st',
       Send websocket
         (RoomJoined room_id player_number (length (clients r')) 2
            players_list)
         (net websocket)
       :: match net websocket with
          | Sent =>
              (λ client,
                 Send client
                   (PlayerJoined room_id player_number (length (clients r'))
                      players_list)
                   (net client)) <$> clients r
          | _ => []
          end,
       outcome_of (net websocket))
    ∧ rooms st' !! py_key room_id = Some r'
    ∧ clients r' = clients r ++ [websocket]
    ∧ players_list = dict_values (players r) ++ [player_number]
    ∧ mapM (λ client, dict_get client (players r')) (clients r')
      = Some players_list
    ∧ players_list ≡ₚ elements (used_player_numbers r').
Proof.
  intros Hst%reachable_rooms_ok Hid Hr Hnew Hlen.
  assert (room_ok r) as Hok by (by eapply Hst).
  pose proof (room_ok_joined r websocket Hok Hnew Hlen) as Hok'.
  rewrite (handler_body_join _ _ _ _ _ _ Hid Hr Hnew).
  rewrite (handler_join_ok _ _ _ _ _ Hok Hlen).
  simpl in *. rewrite (filter_others _ _ Hnew).
  set (player_number :=
         new_player_number (available_numbers (dict_values (players r)))) in *.
  set (r' := Room (clients r ++ [websocket])
               (dict_set websocket player_number (players r))
               ({[player_number]} ∪ used_player_numbers r)) in *.
  exists (State (<[py_key room_id := r']> (rooms st))
            (<[websocket := room_id]> (client_rooms st))),
    r', player_number, (dict_values (players r')).
  split_and!.
  - done.
  - apply lookup_insert_eq.
  - done.
  - apply dict_values_set_new. by rewrite (ok_keys _ Hok).
  - by apply room_ok_taken.
  - apply NoDup_Permutation.
    + apply (ok_distinct _ Hok').
    + apply NoDup_elements.
    + intros n. by rewrite elem_of_elements, (ok_used _ Hok').
Qed.

Lemma join_players_list_witness :
  ∃ st' r' player_number players_list,
    handler_body all_sent st_left 3 (Decoded (JObj (envelope "r1")))
    = (st',
       [Send 3
          (RoomJoined (AStr "r1") player_number (length (clients r')) 2
             players_list)
          Sent;
        Send 2
          (PlayerJoined (AStr "r1") player_number (length (clients r'))
             players_list)
          Sent],
       Continue)
    ∧ players_list = [2; player_number].
Proof.
  destruct (join_players_list st_left all_sent 3 (envelope "r1") (AStr "r1")
              (Room [2] [(2, 2)] {[2]}) reachable_st_left)
    as (st' & r' & n & l & Hrun & _ & _ & Hl & _).
  - reflexivity.
  - vm_compute. reflexivity.
  - simpl. set_solver.
  - simpl. lia.
  - exists st', r', n, l. split; [exact Hrun | exact Hl].
Defined.

(** C1 as stated fails: connections 1 and 2 are in room ["r1"] as players 1
    and 2, connection 1 leaves, connection 3 joins and is given number 1.
    The list sent to 3 and to 2 is [2; 1], the sorted list of the numbers in
    use is [1; 2]. *)
Lemma join_players_list_not_sorted :
  handler_body all_sent st_left 3 (Decoded (JObj (envelope "r1")))
  = (st_rejoined,
     [Send 3 (RoomJoined (AStr "r1") 1 2 2 [2; 1]) Sent;
      Send 2 (PlayerJoined (AStr "r1") 1 2 [2; 1]) Sent],
     Continue)
  ∧ rooms st_rejoined !! AStr "r1" = Some (Room [2; 3] [(2, 2); (3, 1)] {[1; 2]})
  ∧ merge_sort le (elements ({[1; 2]} : gset nat)) = [1; 2]
  ∧ [2; 1] ≠ merge_sort le (elements ({[1; 2]} : gset nat)).
Proof. vm_compute. by split_and!. Qed.


(** * Further properties of the message loop and of the cleanup *)

(** ** Room ids that cannot be dictionary keys *)

(** A message whose ["room_id"] is a JSON array or object makes
    [room_id not in rooms] raise: nothing is sent, the state is untouched,
    the loop of the connection ends and [finally] runs the cleanup. *)
Theorem unhashable_room_id_ends_loop closing net st websocket data room_id inbox :
  dict_get "room_id"%string data = Some room_id →
  (∀ a, room_id ≠ JAtom a) →
  handler_body net st websocket (Decoded (JObj data)) = (st, [], Raised)
  ∧ handler closing st websocket ((net, Decoded (JObj data)) :: inbox)
    = cleanup_player closing st websocket.
Proof.
  intros Hid Hbad.
  assert (handler_body net st websocket (Decoded (JObj data))
          = (st, [], Raised)) as Hrun.
  { unfold handler_body. rewrite Hid.
    destruct room_id as [a| |]; [by destruct (Hbad a) | done | done]. }
  split; [done|]. simpl. rewrite Hrun.
  by destruct (cleanup_player closing st websocket).
Qed.

Lemma unhashable_room_id_ends_loop_witness :
  handler all_sent st_joined 2
    [(all_sent, Decoded (JObj [("room_id"%string, JArr [])]));
     (all_sent, Decoded (JObj (envelope "r1")))]
  = cleanup_player all_sent st_joined 2.
Proof.
  destruct (unhashable_room_id_ends_loop all_sent all_sent st_joined 2
              [("room_id"%string, JArr [])] (JArr [])
              [(all_sent, Decoded (JObj (envelope "r1")))]) as [_ Hloop].
  - reflexivity.
  - discriminate.
  - exact Hloop.
Defined.

(** A room created under the id [null] is never cleaned: [client_rooms.pop]
    returns the recorded [None], which [cleanup_player] reads as "in no
    room".  The entry of the connection is gone, the room and its client
    stay in [rooms]. *)
Theorem null_room_never_cleaned net closing st websocket data :
  dict_get "room_id"%string data = Some (JAtom ANull) →
  rooms st !! ANull = None →
  let st1 := (handler_body net st websocket (Decoded (JObj data))).1.1 in
  (cleanup_player closing st1 websocket).2 = []
  ∧ rooms (cleanup_player closing st1 websocket).1 !! ANull
    = Some (Room [websocket] [(websocket, 1)] {[1]})
  ∧ client_rooms (cleanup_player closing st1 websocket).1 !! websocket = None.
Proof.
  intros Hid Hnew. unfold handler_body. rewrite Hid. simpl. rewrite Hnew.
  unfold handler_create, reply, cleanup_player. simpl.
  rewrite lookup_insert_eq. simpl.
  split_and!; [done | apply lookup_insert_eq | apply lookup_delete_eq].
Qed.

Lemma null_room_never_cleaned_witness :
  rooms (cleanup_player all_sent
           (handler_body all_sent initial 7
              (Decoded (JObj [("room_id"%string, JAtom ANull)]))).1.1 7).1
    !! ANull
  = Some (Room [7] [(7, 1)] {[1]}).
Proof.
  destruct (null_room_never_cleaned all_sent all_sent initial 7
              [("room_id"%string, JAtom ANull)] eq_refl eq_refl)
    as (_ & Hroom & _).
  exact Hroom.
Defined.

(** The room ids [true] and [1] (and [false] and [0]) are one key of
    [rooms]: a connection that sends the number joins the room created under
    the boolean, as player 2, and the reply carries the id as it was sent. *)
Theorem bool_room_id_is_number net net' st websocket other data data' b :
  dict_get "room_id"%string data = Some (JAtom (ABool b)) →
  dict_get "room_id"%string data'
  = Some (JAtom (ANum (if b then 1 else 0))) →
  rooms st !! ANum (if b then 1 else 0) = None →
  other ≠ websocket →
  let st1 := (handler_body net st websocket (Decoded (JObj data))).1.1 in
  ∃ st2 notices,
    handler_body net' st1 other (Decoded (JObj data'))
    = (st2,
       Send other (RoomJoined (ANum (if b then 1 else 0)) 2 2 2 [1; 2])
         (net' other) :: notices,
       outcome_of (net' other)).
Proof.
  intros Hid Hid' Hnew Hne. simpl.
  assert ((handler_body net st websocket (Decoded (JObj data))).1.1
          = State (<[ANum (if b then 1 else 0) :=
                       Room [websocket] [(websocket, 1)] {[1]}]> (rooms st))
              (<[websocket := ABool b]> (client_rooms st))) as ->.
  { unfold handler_body. rewrite Hid. simpl. by rewrite Hnew. }
  rewrite (handler_body_join _ _ _ _ (ANum (if b then 1 else 0))
             (Room [websocket] [(websocket, 1)] {[1]}) Hid').
  - rewrite handler_join_ok; [|apply room_ok_created | simpl; lia].
    simpl. rewrite decide_False by done. by eexists _, _.
  - simpl. apply lookup_insert_eq.
  - simpl. by intros ->%list_elem_of_singleton.
Qed.

Lemma bool_room_id_is_number_witness :
  ∃ st2 notices,
    handler_body all_sent
      (handler_body all_sent initial 1
         (Decoded (JObj [("room_id"%string, JAtom (ABool true))]))).1.1 2
      (Decoded (JObj [("room_id"%string, JAtom (ANum 1))]))
    = (st2, Send 2 (RoomJoined (ANum 1) 2 2 2 [1; 2]) Sent :: notices,
       Continue).
Proof.
  apply (bool_room_id_is_number all_sent all_sent initial 1 2
           [("room_id"%string, JAtom (ABool true))]
           [("room_id"%string, JAtom (ANum 1))] true);
    [reflexivity | reflexivity | reflexivity | discriminate].
Defined.

(** ** The shape of the rooms of a reachable state *)

(** In every reachable state a stored room has one or two clients, all
    different; the keys of ["players"] are the clients in the same order;
    their numbers are different and among 1 and 2; and
    ["used_player_numbers"] holds exactly the numbers of the clients. *)
Theorem reachable_room_shape st key r :
  reachable st →
  rooms st !! key = Some r →
  NoDup (clients r)
  ∧ dict_keys (players r) = clients r
  ∧ 1 ≤ length (clients r) ∧ length (clients r) ≤ 2
  ∧ NoDup (dict_values (players r))
  ∧ (∀ n, n ∈ dict_values (players r) → n = 1 ∨ n = 2)
  ∧ (∀ n, n ∈ used_player_numbers r ↔ n ∈ dict_values (players r)).
Proof.
  intros Hst%reachable_rooms_ok Hr.
  assert (room_ok r) as Hok by (by eapply Hst).
  destruct (room_ok_length r Hok) as [Hmin Hmax].
  destruct Hok. by split_and!.
Qed.

Lemma reachable_room_shape_witness :
  dict_keys [(2, 2); (3, 1)] = [2; 3]
  ∧ NoDup (dict_values [(2, 2); (3, 1)]).
Proof.
  destruct (reachable_room_shape st_rejoined (AStr "r1")
              (Room [2; 3] [(2, 2); (3, 1)] {[1; 2]}) reachable_st_rejoined)
    as (_ & Hkeys & _ & _ & Hdist & _).
  - vm_compute. reflexivity.
  - split; [exact Hkeys | exact Hdist].
Defined.

(** ** The end of a handler *)

(** However the loop of a connection ends (its inbox is over, or an
    exception left the loop), the connection is no longer a key of
    [client_rooms] afterwards. *)
Theorem handler_forgets_connection closing st websocket inbox :
  client_rooms (handler closing st websocket inbox).1 !! websocket = None.
Proof.
  revert st. induction inbox as [|[net message] inbox IH]; intros st; simpl.
  - apply cleanup_player_pops.
  - destruct (handler_body net st websocket message) as [[st1 trace] o].
    destruct o.
    + specialize (IH st1).
      by destruct (handler closing st1 websocket inbox).
    + pose proof (cleanup_player_pops closing st1 websocket).
      by destruct (cleanup_player closing st1 websocket).
Qed.

(** ** What a cleanup leaves alone *)

Lemma elem_of_list_remove_first_ne {A} `{EqDecision A} (x y : A) (l : list A) :
  y ≠ x → y ∈ list_remove_first x l ↔ y ∈ l.
Proof.
  intros Hne. split.
  - intros Hy. eapply elem_of_sublist; [done | apply list_remove_first_sublist].
  - by apply list_remove_first_ne.
Qed.

Lemma dict_get_del_ne {K V} `{EqDecision K} (k k' : K) (d : list (K * V)) :
  k ≠ k' → dict_get k' (dict_del k d) = dict_get k' d.
Proof.
  intros Hne. induction d as [|[k0 v0] d IH]; simpl; [done|].
  destruct (decide (k0 = k)) as [->|]; simpl.
  - by rewrite decide_False.
  - by rewrite IH.
Qed.

Lemma cleanup_player_other_entries net st websocket other :
  other ≠ websocket →
  client_rooms (cleanup_player net st websocket).1 !! other
  = client_rooms st !! other.
Proof.
  intros Hne. unfold cleanup_player.
  destruct (client_rooms st !! websocket) as [room_id|]; [|done].
  case_decide; simpl; [by rewrite lookup_delete_ne|].
  destruct (rooms st !! py_key room_id) as [r|]; simpl;
    [|by rewrite lookup_delete_ne].
  case_decide; simpl; by rewrite lookup_delete_ne.
Qed.

Lemma cleanup_player_other_rooms net st websocket key :
  (∀ room_id, client_rooms st !! websocket = Some room_id →
              key ≠ py_key room_id) →
  rooms (cleanup_player net st websocket).1 !! key = rooms st !! key.
Proof.
  intros Hkey. unfold cleanup_player.
  destruct (client_rooms st !! websocket) as [room_id|]; [|done].
  specialize (Hkey room_id eq_refl).
  case_decide; [done|]. simpl.
  destruct (rooms st !! py_key room_id) as [r|]; [|done].
  case_decide; [|done]. simpl.
  destruct (list_remove_first websocket (clients r)).
  - by rewrite lookup_delete_ne.
  - by rewrite lookup_insert_ne.
Qed.

Lemma cleanup_player_room net st websocket key r r' :
  rooms st !! key = Some r →
  rooms (cleanup_player net st websocket).1 !! key = Some r' →
  (∀ other, other ≠ websocket → other ∈ clients r' ↔ other ∈ clients r)
  ∧ (∀ other, other ≠ websocket →
              dict_get other (players r') = dict_get other (players r))
  ∧ (∀ client, client ∈ clients r' → client ∈ clients r).
Proof.
  intros Hr. unfold cleanup_player.
  destruct (client_rooms st !! websocket) as [room_id|];
    [|by simpl; rewrite Hr; intros [= <-]].
  case_decide; [by simpl; rewrite Hr; intros [= <-]|]. simpl.
  destruct (rooms st !! py_key room_id) as [r0|] eqn:Hr0;
    [|by simpl; rewrite Hr; intros [= <-]].
  case_decide; [|by simpl; rewrite Hr; intros [= <-]]. simpl.
  destruct (decide (py_key room_id = key)) as [<-|Hkey].
  - simplify_eq.
    destruct (list_remove_first websocket (clients r)) eqn:Hrest.
    + by rewrite lookup_delete_eq.
    + rewrite lookup_insert_eq. intros [= <-]. simpl. split_and!.
      * intros other Hne. rewrite <- Hrest.
        by apply elem_of_list_remove_first_ne.
      * intros other Hne. by apply dict_get_del_ne.
      * intros client Hc. rewrite <- Hrest in Hc.
        eapply elem_of_sublist; [done | apply list_remove_first_sublist].
  - destruct (list_remove_first websocket (clients r0)).
    + rewrite lookup_delete_ne by done. by rewrite Hr; intros [= <-].
    + rewrite lookup_insert_ne by done. by rewrite Hr; intros [= <-].
Qed.

Lemma cleanup_player_no_new_room net st websocket key :
  rooms st !! key = None →
  rooms (cleanup_player net st websocket).1 !! key = None.
Proof.
  intros Hnone. unfold cleanup_player.
  destruct (client_rooms st !! websocket) as [room_id|]; [|done].
  case_decide; [done|]. simpl.
  destruct (rooms st !! py_key room_id) as [r|] eqn:Hr; [|done].
  case_decide; [|done]. simpl.
  assert (py_key room_id ≠ key) as Hkey
    by (intros Heq; rewrite Heq in Hr; congruence).
  destruct (list_remove_first websocket (clients r)).
  - by rewrite lookup_delete_ne.
  - by rewrite lookup_insert_ne.
Qed.

(** [cleanup_player] touches one entry of [client_rooms], that of its
    connection, and one room, the one recorded for the connection: the
    entries of the other connections and the other rooms are as before.  A
    room that has another client is still stored afterwards, with that
    client in it under the number it had; no room gets a client it did not
    have, and no room appears. *)
Theorem cleanup_player_frame net st websocket :
  (∀ other, other ≠ websocket →
     client_rooms (cleanup_player net st websocket).1 !! other
     = client_rooms st !! other)
  ∧ (∀ key,
       (∀ room_id, client_rooms st !! websocket = Some room_id →
                   key ≠ py_key room_id) →
       rooms (cleanup_player net st websocket).1 !! key = rooms st !! key)
  ∧ (∀ key r other,
       rooms st !! key = Some r →
       other ∈ clients r →
       other ≠ websocket →
       ∃ r',
         rooms (cleanup_player net st websocket).1 !! key = Some r'
         ∧ other ∈ clients r'
         ∧ dict_get other (players r') = dict_get other (players r)
         ∧ ∀ client, client ∈ clients r' → client ∈ clients r)
  ∧ (∀ key,
       rooms st !! key = None →
       rooms (cleanup_player net st websocket).1 !! key = None).
Proof.
  split_and!.
  - intros. by apply cleanup_player_other_entries.
  - intros. by apply cleanup_player_other_rooms.
  - intros key r other Hr Hin Hne.
    destruct (cleanup_player_keeps_other net st websocket other key r
                Hr Hin (not_eq_sym Hne)) as (r' & Hr' & Hin').
    destruct (cleanup_player_room net st websocket key r r' Hr Hr')
      as (_ & Hnum & Hsub).
    exists r'. split_and!; [done | done | by apply Hnum | done].
  - intros. by apply cleanup_player_no_new_room.
Qed.

Lemma cleanup_player_frame_witness :
  ∃ r',
    rooms (cleanup_player all_sent st_joined 1).1 !! AStr "r1" = Some r'
    ∧ 2 ∈ clients r'
    ∧ dict_get 2 (players r') = Some 2.
Proof.
  destruct (cleanup_player_frame all_sent st_joined 1) as (_ & _ & Hstay & _).
  destruct (Hstay (AStr "r1") (Room [1; 2] [(1, 1); (2, 2)] {[2; 1]}) 2)
    as (r' & Hr' & Hin & Hnum & _).
  - vm_compute. reflexivity.
  - simpl. set_solver.
  - discriminate.
  - exists r'. split_and!; [exact Hr' | exact Hin | exact Hnum].
Defined.

(** ** A connection in two rooms *)

(** A client of a room that sends a message with an id under which no room
    is stored creates a second room; its entry in [client_rooms] names the
    new room only, so its cleanup leaves it a client of the first room, with
    no entry in [client_rooms]. *)
Theorem second_room_leaves_stale_client net closing st websocket data room_id
    old_key r :
  dict_get "room_id"%string data = Some (JAtom room_id) →
  rooms st !! py_key room_id = None →
  rooms st !! old_key = Some r →
  websocket ∈ clients r →
  let st1 := (handler_body net st websocket (Decoded (JObj data))).1.1 in
  client_rooms st1 !! websocket = Some room_id
  ∧ rooms st1 !! old_key = Some r
  ∧ rooms (cleanup_player closing st1 websocket).1 !! old_key = Some r
  ∧ client_rooms (cleanup_player closing st1 websocket).1 !! websocket = None.
Proof.
  intros Hid Hnew Hold Hin.
  assert (old_key ≠ py_key room_id) as Hkey by (intros ->; congruence).
  assert ((handler_body net st websocket (Decoded (JObj data))).1.1
          = State (<[py_key room_id :=
                       Room [websocket] [(websocket, 1)] {[1]}]> (rooms st))
              (<[websocket := room_id]> (client_rooms st))) as Hst1.
  { unfold handler_body. by rewrite Hid, Hnew. }
  simpl. rewrite Hst1.
  assert (∀ cr, rooms (State (<[py_key room_id :=
                                  Room [websocket] [(websocket, 1)] {[1]}]>
                                (rooms st)) cr) !! old_key = Some r) as Hold1.
  { intros cr. simpl. by rewrite lookup_insert_ne. }
  split_and!.
  - apply lookup_insert_eq.
  - apply Hold1.
  - rewrite cleanup_player_other_rooms; [apply Hold1|].
    intros a. simpl. rewrite lookup_insert_eq. by intros [= <-].
  - apply cleanup_player_pops.
Qed.

Lemma second_room_leaves_stale_client_witness :
  rooms
    (cleanup_player all_sent
       (handler_body all_sent st_joined 2
          (Decoded (JObj (envelope "r2")))).1.1 2).1
    !! AStr "r1"
  = Some (Room [1; 2] [(1, 1); (2, 2)] {[2; 1]}).
Proof.
  destruct (second_room_leaves_stale_client all_sent all_sent st_joined 2
              (envelope "r2") (AStr "r2") (AStr "r1")
              (Room [1; 2] [(1, 1); (2, 2)] {[2; 1]}))
    as (_ & _ & Hstale & _).
  - reflexivity.
  - vm_compute. reflexivity.
  - vm_compute. reflexivity.
  - simpl. set_solver.
  - exact Hstale.
Defined.

(** ** The entries of [client_rooms] *)

Lemma index_ok_cleanup_player net st websocket :
  index_ok st → index_ok (cleanup_player net st websocket).1.
Proof.
  intros Hix c a Hc.
  destruct (decide (c = websocket)) as [->|Hne].
  - by rewrite cleanup_player_pops in Hc.
  - rewrite cleanup_player_other_entries in Hc by done.
    destruct (Hix c a Hc) as (r & Hr & Hin).
    by eapply cleanup_player_keeps_other.
Qed.

Lemma index_ok_forward net websocket msg snapshot st n :
  index_ok st → index_ok (forward net websocket msg snapshot st n).1.1.
Proof.
  revert st n. induction snapshot as [|client snapshot IH]; intros st n Hst;
    simpl; [done|].
  case_decide; [by apply IH|].
  destruct (net client).
  - specialize (IH st (S n) Hst).
    by destruct (forward net websocket msg snapshot st (S n)) as [[??]?].
  - pose proof (index_ok_cleanup_player net st client Hst) as Hst'.
    destruct (cleanup_player net st client) as [st' notices].
    specialize (IH st' n Hst').
    by destruct (forward net websocket msg snapshot st' n) as [[??]?].
  - specialize (IH st n Hst).
    by destruct (forward net websocket msg snapshot st n) as [[??]?].
Qed.

(** A room put under the key of [room_id], with the clients that were under
    that key and [websocket], and [websocket] recorded for [room_id]. *)
Lemma index_ok_enter st websocket room_id r' :
  index_ok st →
  websocket ∈ clients r' →
  (∀ r c, rooms st !! py_key room_id = Some r → c ∈ clients r → c ∈ clients r') →
  index_ok (State (<[py_key room_id := r']> (rooms st))
              (<[websocket := room_id]> (client_rooms st))).
Proof.
  intros Hix Hin Hold c a. simpl. rewrite lookup_insert.
  case_decide as Hc.
  - subst c. intros [= <-]. exists r'. by rewrite lookup_insert_eq.
  - intros Hca. destruct (Hix c a Hca) as (r & Hr & Hcr).
    destruct (decide (py_key room_id = py_key a)) as [Hkey|Hkey].
    + rewrite Hkey, lookup_insert_eq. exists r'. split; [done|].
      eapply Hold; [by rewrite Hkey | done].
    + rewrite lookup_insert_ne by done. by exists r.
Qed.

Lemma index_ok_handler_body net st websocket message :
  index_ok st → index_ok (handler_body net st websocket message).1.1.
Proof.
  intros Hst. unfold handler_body.
  destruct message as [| |[a|items|data]]; try done.
  destruct (dict_get "room_id"%string data) as [[room_id|?|?]|]; try done.
  destruct (rooms st !! py_key room_id) as [r|] eqn:Hr.
  - case_decide as Hin.
    + unfold handler_relay.
      destruct (dict_get websocket (players r)) as [player_number|]; [|done].
      pose proof (index_ok_forward net websocket
        (DataTransfer data player_number) (clients r) st 0 Hst) as Hst'.
      by destruct (forward _ _ _ _ _ _) as [[??]?].
    + unfold handler_join. case_decide as Hfull; [done|].
      destruct (mapM _ _) as [taken|]; [|done].
      assert (index_ok (State
        (<[py_key room_id :=
             Room (clients r ++ [websocket])
               (dict_set websocket
                  (new_player_number (available_numbers taken)) (players r))
               ({[new_player_number (available_numbers taken)]}
                ∪ used_player_numbers r)]> (rooms st))
        (<[websocket := room_id]> (client_rooms st)))) as Hst'.
      { apply index_ok_enter; [done | simpl; set_solver |].
        intros r0 c Hr0 Hc. simplify_eq. simpl. set_solver. }
      by destruct (net websocket).
  - unfold handler_create, reply. simpl.
    apply index_ok_enter; [done | simpl; set_solver |].
    intros r0 c Hr0. congruence.
Qed.

Lemma reachable_index_ok st : reachable st → index_ok st.
Proof.
  induction 1.
  - intros c a. simpl. by rewrite lookup_empty.
  - by apply index_ok_handler_body.
  - by apply index_ok_cleanup_player.
Qed.

(** In every reachable state an entry of [client_rooms] names a room that is
    stored in [rooms] and has the connection among its clients, under a
    number: the returns of [cleanup_player] for a missing room, and its test
    [websocket in room["clients"]], never turn a recorded connection away. *)
Theorem reachable_entry_has_room st websocket room_id :
  reachable st →
  client_rooms st !! websocket = Some room_id →
  ∃ r n,
    rooms st !! py_key room_id = Some r
    ∧ websocket ∈ clients r
    ∧ dict_get websocket (players r) = Some n.
Proof.
  intros Hst Hcr.
  destruct (reachable_index_ok st Hst websocket room_id Hcr) as (r & Hr & Hin).
  assert (room_ok r) as Hok by (by eapply reachable_rooms_ok).
  destruct (room_ok_member r websocket Hok Hin) as [n Hn].
  by exists r, n.
Qed.

Lemma reachable_entry_has_room_witness :
  ∃ r n,
    rooms st_rejoined !! AStr "r1" = Some r
    ∧ 3 ∈ clients r
    ∧ dict_get 3 (players r) = Some n.
Proof.
  apply (reachable_entry_has_room st_rejoined 3 (AStr "r1")
           reachable_st_rejoined).
  vm_compute. reflexivity.
Defined.

(** ** Numbers on a join *)

(** A join gives no other client a new number: in the room the joiner comes
    into, every client that was there holds the number it held. *)
Theorem join_keeps_numbers net st websocket data room_id r r' client :
  dict_get "room_id"%string data = Some (JAtom room_id) →
  rooms st !! py_key room_id = Some r →
  websocket ∉ clients r →
  rooms (handler_body net st websocket (Decoded (JObj data))).1.1
    !! py_key room_id = Some r' →
  client ∈ clients r →
  client ∈ clients r'
  ∧ dict_get client (players r') = dict_get client (players r).
Proof.
  intros Hid Hr Hnew Hr' Hin.
  rewrite (handler_body_join _ _ _ _ _ _ Hid Hr Hnew) in Hr'.
  assert (client ≠ websocket) as Hne by (by intros ->).
  unfold handler_join in Hr'.
  case_decide; [simpl in Hr'; by simplify_eq|].
  destruct (mapM _ _) as [taken|]; [|simpl in Hr'; by simplify_eq].
  assert (r' = Room (clients r ++ [websocket])
                 (dict_set websocket
                    (new_player_number (available_numbers taken)) (players r))
                 ({[new_player_number (available_numbers taken)]}
                  ∪ used_player_numbers r)) as ->.
  { destruct (net websocket); simpl in Hr';
      rewrite lookup_insert_eq in Hr'; by simplify_eq. }
  simpl. split; [set_solver|].
  by apply dict_get_set_ne.
Qed.

Lemma join_keeps_numbers_witness :
  dict_get 2 [(2, 2); (3, 1)] = dict_get 2 [(2, 2)].
Proof.
  destruct (join_keeps_numbers all_sent st_left 3 (envelope "r1") (AStr "r1")
              (Room [2] [(2, 2)] {[2]})
              (Room [2; 3] [(2, 2); (3, 1)] {[1; 2]}) 2) as [_ Hnum].
  - reflexivity.
  - vm_compute. reflexivity.
  - simpl. set_solver.
  - vm_compute. reflexivity.
  - simpl. set_solver.
  - exact Hnum.
Defined.

(** ** The forwards of a relay *)

Lemma filter_no_transfer (trace : list event) :
  Forall (λ e, is_transfer (sent_packet e) = false) trace →
  filter (λ e, is_transfer (sent_packet e)) trace = [].
Proof.
  induction 1 as [|e trace He _ IH]; [done|].
  rewrite filter_cons_False; [done|].
  intros Ht. rewrite He in Ht. exact Ht.
Qed.

(** One attempt per client of the copy other than the sender, in the order of
    the copy; the count is that of the attempts that went out. *)
Lemma forward_spec net websocket msg snapshot st n :
  is_transfer msg = true →
  (forward net websocket msg snapshot st n).2
  = n + recipients net websocket snapshot
  ∧ filter (λ e, is_transfer (sent_packet e))
      (forward net websocket msg snapshot st n).1.2
    = (λ client, Send client msg (net client))
        <$> filter (λ client, client ≠ websocket) snapshot.
Proof.
  intros Hmsg. unfold recipients.
  revert st n. induction snapshot as [|client snapshot IH]; intros st n; simpl.
  - split; [lia | done].
  - case_decide as Hself.
    + rewrite !filter_cons_False by (intros ?; tauto).
      apply IH.
    + rewrite (filter_cons_True (λ c, c ≠ websocket)) by done.
      destruct (net client) eqn:Hnet.
      * rewrite filter_cons_True by done. simpl.
        destruct (IH st (S n)) as [IHn IHt].
        destruct (forward net websocket msg snapshot st (S n)) as [[st' tr] k].
        simpl in *. rewrite filter_cons_True by (simpl; by rewrite Hmsg).
        split; [lia | by rewrite IHt, Hnet].
      * rewrite filter_cons_False by (rewrite Hnet; intros [_ ?]; done).
        pose proof (cleanup_player_notices net st client) as Hnotices.
        destruct (cleanup_player net st client) as [st1 notices].
        destruct (IH st1 n) as [IHn IHt].
        destruct (forward net websocket msg snapshot st1 n) as [[st' tr] k].
        simpl in *. rewrite filter_cons_True by (simpl; by rewrite Hmsg).
        rewrite filter_app, (filter_no_transfer notices Hnotices). simpl.
        split; [lia | by rewrite IHt, Hnet].
      * rewrite filter_cons_False by (rewrite Hnet; intros [_ ?]; done).
        destruct (IH st n) as [IHn IHt].
        destruct (forward net websocket msg snapshot st n) as [[st' tr] k].
        simpl in *. rewrite filter_cons_True by (simpl; by rewrite Hmsg).
        split; [lia | by rewrite IHt, Hnet].
Qed.

Lemma forward_no_closed net websocket msg snapshot st n :
  (∀ client, client ∈ snapshot → client ≠ websocket →
             net client ≠ ConnectionClosed) →
  (forward net websocket msg snapshot st n).1.1 = st.
Proof.
  revert n. induction snapshot as [|client snapshot IH]; intros n Hopen;
    simpl; [done|].
  assert (∀ k, (forward net websocket msg snapshot st k).1.1 = st) as IH'.
  { intros k. apply IH. intros c Hc. apply Hopen. by apply list_elem_of_further. }
  case_decide as Hself; [apply IH'|].
  pose proof (Hopen client (list_elem_of_here _ _) Hself) as Hnet.
  destruct (net client); [|done|].
  - specialize (IH' (S n)).
    by destruct (forward net websocket msg snapshot st (S n)) as [[??]?].
  - specialize (IH' n).
    by destruct (forward net websocket msg snapshot st n) as [[??]?].
Qed.

(** Whatever the size of the room, a relay attempts one [data_transfer] per
    client other than the sender, in the order of [room["clients"]], each
    with the whole decoded object and the number of the sender, and never
    one to the sender; the [data_received] sent last carries the number of
    attempts that went out. *)
Theorem relay_forwards_to_the_others net st websocket data room_id r player_number :
  dict_get "room_id"%string data = Some (JAtom room_id) →
  rooms st !! py_key room_id = Some r →
  websocket ∈ clients r →
  dict_get websocket (players r) = Some player_number →
  ∃ st' trace current,
    handler_body net st websocket (Decoded (JObj data))
    = (st',
       trace
       ++ [Send websocket
             (DataReceived room_id (recipients net websocket (clients r))
                current)
             (net websocket)],
       outcome_of (net websocket))
    ∧ filter (λ e, is_transfer (sent_packet e)) trace
      = (λ client, Send client (DataTransfer data player_number) (net client))
          <$> filter (λ client, client ≠ websocket) (clients r).
Proof.
  intros Hid Hr Hin Hpn.
  rewrite (handler_body_relay _ _ _ _ _ _ Hid Hr Hin).
  unfold handler_relay. rewrite Hpn.
  destruct (forward_spec net websocket (DataTransfer data player_number)
              (clients r) st 0 eq_refl) as [Hcount Htrace].
  destruct (forward net websocket (DataTransfer data player_number)
              (clients r) st 0) as [[st' trace] k].
  simpl in *. subst k. by eexists _, _, _.
Qed.

Lemma relay_forwards_to_the_others_witness :
  ∃ st' trace current,
    handler_body (closed_for 2) st_joined 1 (Decoded (JObj (envelope "r1")))
    = (st', trace ++ [Send 1 (DataReceived (AStr "r1") 0 current) Sent],
       Continue)
    ∧ filter (λ e, is_transfer (sent_packet e)) trace
      = [Send 2 (DataTransfer (envelope "r1") 1) ConnectionClosed].
Proof.
  apply (relay_forwards_to_the_others (closed_for 2) st_joined 1
           (envelope "r1") (AStr "r1")
           (Room [1; 2] [(1, 1); (2, 2)] {[2; 1]}) 1).
  - reflexivity.
  - vm_compute. reflexivity.
  - simpl. set_solver.
  - reflexivity.
Defined.

(** A relay in which no forward finds a closed connection leaves [rooms] and
    [client_rooms] as they were, whatever else fails. *)
Theorem relay_keeps_state net st websocket data room_id r :
  dict_get "room_id"%string data = Some (JAtom room_id) →
  rooms st !! py_key room_id = Some r →
  websocket ∈ clients r →
  (∀ client, client ∈ clients r → client ≠ websocket →
             net client ≠ ConnectionClosed) →
  (handler_body net st websocket (Decoded (JObj data))).1.1 = st.
Proof.
  intros Hid Hr Hin Hopen.
  rewrite (handler_body_relay _ _ _ _ _ _ Hid Hr Hin).
  unfold handler_relay.
  destruct (dict_get websocket (players r)) as [player_number|]; [|done].
  pose proof (forward_no_closed net websocket
                (DataTransfer data player_number) (clients r) st 0 Hopen)
    as Hsame.
  by destruct (forward _ _ _ _ _ _) as [[??]?].
Qed.

Lemma relay_keeps_state_witness :
  (handler_body (λ _, OtherError) st_joined 1
     (Decoded (JObj (envelope "r1")))).1.1
  = st_joined.
Proof.
  apply (relay_keeps_state (λ _, OtherError) st_joined 1 (envelope "r1")
           (AStr "r1") (Room [1; 2] [(1, 1); (2, 2)] {[2; 1]})).
  - reflexivity.
  - vm_compute. reflexivity.
  - simpl. set_solver.
  - intros client _ _. discriminate.
Defined.

(** ** A client of a room of two leaves *)

(** The two orders of a room of two, with the numbers of both clients. *)
Lemma room_ok_pair_players r leaver other n m :
  room_ok r →
  leaver ∈ clients r → other ∈ clients r → other ≠ leaver →
  dict_get leaver (players r) = Some n →
  dict_get other (players r) = Some m →
  n ≠ m
  ∧ (clients r = [leaver; other] ∧ players r = [(leaver, n); (other, m)]
     ∨ clients r = [other; leaver] ∧ players r = [(other, m); (leaver, n)]).
Proof.
  intros Hok Hl Ho Hne Hn Hm.
  pose proof (ok_keys _ Hok) as Hkeys.
  pose proof (ok_distinct _ Hok) as Hdist.
  destruct (room_ok_pair r leaver other Hok Hl Ho Hne) as [Hc|Hc];
    rewrite Hc in Hkeys;
    destruct (players r) as [|[k1 v1] [|[k2 v2] [|? ?]]]; simplify_eq/=.
  - rewrite decide_True in Hn by done.
    rewrite decide_False, decide_True in Hm by done. simplify_eq.
    apply NoDup_cons in Hdist as [Hv%not_elem_of_cons _].
    split; [by destruct Hv | by left].
  - rewrite decide_False, decide_True in Hn by done.
    rewrite decide_True in Hm by done. simplify_eq.
    apply NoDup_cons in Hdist as [Hv%not_elem_of_cons _].
    split; [intros ->; by destruct Hv | by right].
Qed.

Lemma cleanup_player_pair net st leaver other room_id r n m :
  room_ok r →
  client_rooms st !! leaver = Some room_id →
  room_id ≠ ANull →
  rooms st !! py_key room_id = Some r →
  leaver ∈ clients r → other ∈ clients r → other ≠ leaver →
  dict_get leaver (players r) = Some n →
  dict_get other (players r) = Some m →
  cleanup_player net st leaver
  = (State
       (<[py_key room_id :=
            Room [other] [(other, m)] (used_player_numbers r ∖ {[n]})]>
          (rooms st))
       (delete leaver (client_rooms st)),
     [Send other (PlayerLeft room_id (Some n) 1 [m]) (net other)]).
Proof.
  intros Hok Hcr Hnull Hr Hl Ho Hne Hn Hm.
  rewrite (cleanup_player_member _ _ _ _ _ Hcr Hnull Hr Hl). rewrite Hn.
  destruct (room_ok_pair_players r leaver other n m Hok Hl Ho Hne Hn Hm)
    as [_ [[-> ->]|[-> ->]]]; simpl.
  - by rewrite !decide_True.
  - rewrite !(decide_False (P := other = leaver)) by done.
    by rewrite !decide_True.
Qed.

(** In a reachable state, when one of the two clients of a room is cleaned
    up, the other is sent one [player_left] with the number of the leaver,
    a count of 1 and its own number as the list of players; it stays in the
    room alone under its number, the only number then in use. *)
Theorem player_left_notice net st leaver other room_id r n m :
  reachable st →
  client_rooms st !! leaver = Some room_id →
  room_id ≠ ANull →
  rooms st !! py_key room_id = Some r →
  other ∈ clients r →
  other ≠ leaver →
  dict_get leaver (players r) = Some n →
  dict_get other (players r) = Some m →
  (cleanup_player net st leaver).2
  = [Send other (PlayerLeft room_id (Some n) 1 [m]) (net other)]
  ∧ ∃ r',
      rooms (cleanup_player net st leaver).1 !! py_key room_id = Some r'
      ∧ clients r' = [other]
      ∧ players r' = [(other, m)]
      ∧ ∀ k, k ∈ used_player_numbers r' ↔ k = m.
Proof.
  intros Hst Hcr Hnull Hr Ho Hne Hn Hm.
  assert (room_ok r) as Hok by (by eapply reachable_rooms_ok).
  assert (leaver ∈ clients r) as Hl.
  { destruct (reachable_index_ok st Hst leaver room_id Hcr) as (r0 & Hr0 & ?).
    by simplify_eq. }
  rewrite (cleanup_player_pair net st leaver other room_id r n m) by done.
  simpl. split; [done|]. eexists. split; [apply lookup_insert_eq|].
  simpl. split_and!; [done | done |].
  intros k. rewrite elem_of_difference, elem_of_singleton, (ok_used _ Hok).
  destruct (room_ok_pair_players r leaver other n m Hok Hl Ho Hne Hn Hm)
    as [Hnm [[_ ->]|[_ ->]]]; simpl; rewrite !elem_of_cons, elem_of_nil;
    naive_solver.
Qed.

Lemma player_left_notice_witness :
  (cleanup_player all_sent st_rejoined 2).2
  = [Send 3 (PlayerLeft (AStr "r1") (Some 2) 1 [1]) Sent].
Proof.
  destruct (player_left_notice all_sent st_rejoined 2 3 (AStr "r1")
              (Room [2; 3] [(2, 2); (3, 1)] {[1; 2]}) 2 1
              reachable_st_rejoined) as [Hnotice _].
  - vm_compute. reflexivity.
  - discriminate.
  - vm_compute. reflexivity.
  - simpl. set_solver.
  - discriminate.
  - reflexivity.
  - reflexivity.
  - exact Hnotice.
Defined.



(** ** Coming into a room and leaving it *)

Lemma dict_del_set_new {K V} `{EqDecision K} (k : K) (v : V) (d : list (K * V)) :
  k ∉ dict_keys d → dict_del k (dict_set k v d) = d.
Proof.
  induction d as [|[k' v'] d IH]; simpl.
  - intros _. by rewrite decide_True.
  - rewrite not_elem_of_cons. intros [Hne Hnew].
    rewrite decide_False by done. simpl.
    rewrite decide_False by done. by rewrite IH.
Qed.

Lemma list_remove_first_app_new {A} `{EqDecision A} (x : A) (l : list A) :
  x ∉ l → list_remove_first x (l ++ [x]) = l.
Proof.
  induction l as [|y l IH]; simpl.
  - intros _. by rewrite decide_True.
  - rewrite not_elem_of_cons. intros [Hne Hnew].
    rewrite decide_False by done. by rewrite IH.
Qed.

(** The state after a join into a room in shape with a free place. *)
Lemma handler_body_join_state net st websocket data room_id r :
  room_ok r →
  dict_get "room_id"%string data = Some (JAtom room_id) →
  rooms st !! py_key room_id = Some r →
  websocket ∉ clients r →
  length (clients r) < 2 →
  (handler_body net st websocket (Decoded (JObj data))).1.1
  = State
      (<[py_key room_id :=
           Room (clients r ++ [websocket])
             (dict_set websocket
                (new_player_number (available_numbers (dict_values (players r))))
                (players r))
             ({[new_player_number (available_numbers (dict_values (players r)))]}
              ∪ used_player_numbers r)]> (rooms st))
      (<[websocket := room_id]> (client_rooms st)).
Proof.
  intros Hok Hid Hr Hnew Hlen.
  rewrite (handler_body_join _ _ _ _ _ _ Hid Hr Hnew).
  by rewrite (handler_join_ok _ _ _ _ _ Hok Hlen).
Qed.

(** In a reachable state, a connection that creates a room, or joins a room
    with a free place, under an id other than [null], and is then cleaned
    up, leaves [rooms] exactly as it found it: the room it created is
    deleted, the room it joined has its clients, their numbers and the
    numbers in use as before. *)
Theorem enter_then_cleanup_restores_rooms net closing st websocket data room_id :
  reachable st →
  dict_get "room_id"%string data = Some (JAtom room_id) →
  room_id ≠ ANull →
  (∀ r, rooms st !! py_key room_id = Some r →
        (websocket ∉ clients r) ∧ length (clients r) < 2) →
  rooms (cleanup_player closing
           (handler_body net st websocket (Decoded (JObj data))).1.1
           websocket).1
  = rooms st.
Proof.
  intros Hst%reachable_rooms_ok Hid Hnull Hfree.
  destruct (rooms st !! py_key room_id) as [r|] eqn:Hr.
  - destruct (Hfree r eq_refl) as [Hnew Hlen].
    assert (room_ok r) as Hok by (by eapply Hst).
    rewrite (handler_body_join_state net st websocket data room_id r)
      by done.
    set (pn := new_player_number (available_numbers (dict_values (players r)))).
    destruct (new_player_number_smallest_free r Hok Hlen) as (_ & Hpn & _).
    fold pn in Hpn.
    rewrite (cleanup_player_member closing _ websocket room_id
               (Room (clients r ++ [websocket])
                  (dict_set websocket pn (players r))
                  ({[pn]} ∪ used_player_numbers r))); simpl.
    + rewrite dict_get_set_eq, list_remove_first_app_new by done.
      rewrite dict_del_set_new by (by rewrite (ok_keys _ Hok)).
      pose proof (ok_occupied _ Hok) as Hne.
      destruct (clients r) as [|c l] eqn:Hc; [done|].
      rewrite insert_insert_eq. apply insert_id. rewrite Hr. f_equal.
      destruct r as [cl pl used]. simpl in *. subst cl. f_equal.
      apply set_eq. intros k.
      rewrite elem_of_difference, elem_of_union, elem_of_singleton.
      split.
      * intros Hk. split; [by right|]. by intros ->.
      * intros [[->|Hk] Hkn]; [by destruct Hkn | done].
    + apply lookup_insert_eq.
    + done.
    + apply lookup_insert_eq.
    + set_solver.
  - assert ((handler_body net st websocket (Decoded (JObj data))).1.1
            = State (<[py_key room_id :=
                         Room [websocket] [(websocket, 1)] {[1]}]> (rooms st))
                (<[websocket := room_id]> (client_rooms st))) as ->.
    { unfold handler_body. by rewrite Hid, Hr. }
    rewrite (cleanup_player_member closing _ websocket room_id
               (Room [websocket] [(websocket, 1)] {[1]})); simpl.
    + rewrite decide_True by done.
      rewrite delete_insert_eq. by apply delete_id.
    + apply lookup_insert_eq.
    + done.
    + apply lookup_insert_eq.
    + set_solver.
Qed.

Lemma enter_then_cleanup_restores_rooms_witness :
  rooms (cleanup_player all_sent
           (handler_body all_sent st_left 3
              (Decoded (JObj (envelope "r1")))).1.1 3).1
  = rooms st_left.
Proof.
  apply (enter_then_cleanup_restores_rooms all_sent all_sent st_left 3
           (envelope "r1") (AStr "r1") reachable_st_left).
  - reflexivity.
  - discriminate.
  - intros r Hr. vm_compute in Hr. simplify_eq. simpl.
    split; [set_solver | lia].
Defined.

(** ** A join whose reply fails *)



(** ** Who is told that a client left *)

(** In a reachable state [cleanup_player] sends nothing to the connection it
    cleans up: every [player_left] goes to a client that stays. *)
Theorem cleanup_player_spares_leaver net st websocket :
  reachable st →
  Forall (λ e, target e ≠ websocket) (cleanup_player net st websocket).2.
Proof.
  intros Hst%reachable_rooms_ok. unfold cleanup_player.
  destruct (client_rooms st !! websocket) as [room_id|]; [|by constructor].
  case_decide; [by constructor|]. simpl.
  destruct (rooms st !! py_key room_id) as [r|] eqn:Hr; [|by constructor].
  case_decide; [|by constructor]. simpl.
  apply Forall_fmap, Forall_forall. intros c Hc. simpl.
  apply elem_of_list_remove_first in Hc; [tauto|].
  apply (ok_members r). by eapply Hst.
Qed.

Lemma cleanup_player_spares_leaver_witness :
  Forall (λ e, target e ≠ 2) (cleanup_player all_sent st_rejoined 2).2.
Proof.
  apply (cleanup_player_spares_leaver all_sent st_rejoined 2
           reachable_st_rejoined).
Defined.
